(** * The BINC peripheral example, as a shallow embedding

    Source: [examples/peripheral/peripheral.c].  The program is a
    single-threaded GLib main-loop client of the BINC library: it keeps
    five global pointers, installs callbacks, and reacts to events by
    issuing library calls.

    The embedding keeps that shape.  The globals and the little that the
    program can observe of GLib and of the daemon form a [state]; every
    call that leaves the file (to the BINC library, GLib or libc) is
    recorded, with its arguments and its result, as an [event]; and each C
    function is a computation in a state-and-output monad [M], whose output
    is the list of calls it issued, oldest first. *)

From Stdlib Require Import ZArith String Ascii List Bool Lia.
From stdpp Require Import base gmap strings list.
Import ListNotations.

Local Open Scope string_scope.
Local Open Scope Z_scope.
Local Open Scope list_scope.

(** ** Pointers, devices and call events *)

(** A C pointer to an opaque library object: [NULL], or a handle. *)
Inductive ptr : Type :=
| NULL
| Ptr (h : nat).

#[global] Instance ptr_eq_dec : EqDecision ptr.
Proof. solve_decision. Defined.

Definition is_null (p : ptr) : bool :=
  match p with NULL => true | Ptr _ => false end.

(** Modelled from the spec: the enumeration [ConnectionState] is declared in
    the library's [device.h], which is not part of the example.  The program
    names two of its four values. *)
Inductive ConnectionState : Type :=
| BINC_DISCONNECTED
| BINC_CONNECTED
| BINC_CONNECTING
| BINC_DISCONNECTING.

#[global] Instance ConnectionState_eq_dec : EqDecision ConnectionState.
Proof. solve_decision. Defined.

(** Modelled from the spec: a remote central.  [Device] is declared in the
    library and opaque to the program, which only calls getters on it; the
    record holds the fields of the specification's data model, named after
    the getters that return them. *)
Record Device : Type := mkDevice {
  binc_device_get_address : string;
  binc_device_get_name : option string;
  binc_device_get_connection_state : ConnectionState;
  binc_device_is_bonded : bool
}.

#[global] Instance Device_eq_dec : EqDecision Device.
Proof. solve_decision. Defined.

(** An argument or a result of a recorded call. *)
Inductive arg : Type :=
| AVoid                                   (* no result *)
| APtr (p : ptr)                          (* an object pointer *)
| AStr (s : string)                       (* a C string *)
| AOptStr (s : option string)             (* a C string that may be NULL *)
| AInt (z : Z)                            (* an integer or enum constant *)
| ABool (b : bool)                        (* a gboolean *)
| AFun (f : string)                       (* the address of a function of the program *)
| ABytes (bs : list Byte.byte)            (* the contents of a byte array *)
| ADev (getter : string) (d : Device)     (* a string the library derives from a device *)
| AOf (getter : string) (p : ptr).        (* a string the library derives from an object *)

#[global] Instance byte_eq_dec : EqDecision Byte.byte := Byte.byte_eq_dec.

#[global] Instance arg_eq_dec : EqDecision arg.
Proof. solve_decision. Defined.

(** One call leaving the program: callee, arguments, result. *)
Record event : Type := Call {
  callee : string;
  arguments : list arg;
  result : arg
}.

#[global] Instance event_eq_dec : EqDecision event.
Proof. solve_decision. Defined.

Definition is_call (f : string) (e : event) : bool := String.eqb (callee e) f.

Definition calls_to (f : string) (t : list event) : list event :=
  List.filter (is_call f) t.

(** ** Program state *)

(** The five globals of [peripheral.c], lines 41-45. *)
Module Session.
Record t : Type := mk {
  loop : ptr;
  default_adapter : ptr;
  advertisement : ptr;
  app : ptr;
  agent : ptr
}.

Definition initial : t := mk NULL NULL NULL NULL NULL.

Definition set_loop (p : ptr) (g : t) : t :=
  mk p (default_adapter g) (advertisement g) (app g) (agent g).
Definition set_default_adapter (p : ptr) (g : t) : t :=
  mk (loop g) p (advertisement g) (app g) (agent g).
Definition set_advertisement (p : ptr) (g : t) : t :=
  mk (loop g) (default_adapter g) p (app g) (agent g).
Definition set_app (p : ptr) (g : t) : t :=
  mk (loop g) (default_adapter g) (advertisement g) p (agent g).
Definition set_agent (p : ptr) (g : t) : t :=
  mk (loop g) (default_adapter g) (advertisement g) (app g) p.
End Session.

#[global] Instance Session_eq_dec : EqDecision Session.t.
Proof. solve_decision. Defined.

(** What the outside world answers to the program's queries. *)
Record environment : Type := mkEnv {
  bus_available : bool;      (* g_bus_get_sync returns a connection *)
  signal_installable : bool; (* signal() does not return SIG_ERR *)
  adapter_present : bool;    (* binc_adapter_get_default finds an adapter *)
  adapter_powered : bool     (* binc_adapter_get_powered_state *)
}.

Record state : Type := mkState {
  globals : Session.t;
  env : environment;
  next_handle : nat;             (* next fresh object handle *)
  stdin : string;                (* unread standard input *)
  timeouts : list (Z * ptr);     (* GLib timeout sources calling [callback]: seconds, data *)
  sigint_handler : bool;         (* cleanup_handler is installed for SIGINT *)
  is_running : bool              (* the main loop's is_running flag *)
}.

Definition with_globals (f : Session.t -> Session.t) (s : state) : state :=
  mkState (f (globals s)) (env s) (next_handle s) (stdin s) (timeouts s)
          (sigint_handler s) (is_running s).
Definition with_next_handle (n : nat) (s : state) : state :=
  mkState (globals s) (env s) n (stdin s) (timeouts s) (sigint_handler s) (is_running s).
Definition with_stdin (i : string) (s : state) : state :=
  mkState (globals s) (env s) (next_handle s) i (timeouts s) (sigint_handler s) (is_running s).
Definition with_timeouts (l : list (Z * ptr)) (s : state) : state :=
  mkState (globals s) (env s) (next_handle s) (stdin s) l (sigint_handler s) (is_running s).
Definition with_sigint_handler (b : bool) (s : state) : state :=
  mkState (globals s) (env s) (next_handle s) (stdin s) (timeouts s) b (is_running s).
Definition with_is_running (b : bool) (s : state) : state :=
  mkState (globals s) (env s) (next_handle s) (stdin s) (timeouts s) (sigint_handler s) b.

Definition initial_state (e : environment) (input : string) : state :=
  mkState Session.initial e 1%nat input [] false false.

(** ** The monad: state passing plus the calls issued *)

Definition M (A : Type) : Type := state -> A * state * list event.

Definition ret {A} (a : A) : M A := fun s => (a, s, []).

Definition bind {A B} (m : M A) (k : A -> M B) : M B :=
  fun s =>
    let '(a, s1, t1) := m s in
    let '(b, s2, t2) := k a s1 in
    (b, s2, t1 ++ t2).

Declare Scope monad_scope.
Delimit Scope monad_scope with monad.
Notation "x <- m ;; k" := (bind m (fun x => k))
  (at level 100, m at next level, k at level 200, right associativity) : monad_scope.
Notation "m ;; k" := (bind m (fun _ => k))
  (at level 100, k at level 200, right associativity) : monad_scope.
Local Open Scope monad_scope.

Definition get {A} (f : state -> A) : M A := fun s => (f s, s, []).
Definition modify (f : state -> state) : M unit := fun s => (tt, f s, []).
Definition when (b : bool) (m : M unit) : M unit := if b then m else ret tt.

(** The three observations of a run. *)
Definition value_of {A} (m : M A) (s : state) : A := fst (fst (m s)).
Definition state_after {A} (m : M A) (s : state) : state := snd (fst (m s)).
Definition calls_of {A} (m : M A) (s : state) : list event := snd (m s).

(** Reading and writing the globals. *)
Definition global (f : Session.t -> ptr) : M ptr := get (fun s => f (globals s)).
Definition assign (set : ptr -> Session.t -> Session.t) (p : ptr) : M unit :=
  modify (with_globals (set p)).

(** A call with no result, and a call whose result is [r]. *)
Definition call (f : string) (args : list arg) : M unit :=
  fun s => (tt, s, [Call f args AVoid]).
Definition call_returning {A} (f : string) (args : list arg) (inj : A -> arg) (r : A) : M A :=
  fun s => (r, s, [Call f args (inj r)]).

(** A library constructor: the result is a fresh object. *)
Definition construct (f : string) (args : list arg) : M ptr :=
  fun s => let p := Ptr (next_handle s) in
           (p, with_next_handle (S (next_handle s)) s, [Call f args (APtr p)]).

(** ** The library, GLib and libc calls the program makes *)

Definition TAG : string := "Main".
Definition HTS_SERVICE_UUID : string := "00001809-0000-1000-8000-00805f9b34fb".
Definition TEMPERATURE_CHAR_UUID : string := "00002a1c-0000-1000-8000-00805f9b34fb".
Definition CUD_CHAR : string := "00002901-0000-1000-8000-00805f9b34fb".

Definition SIGINT : Z := 2.

Definition log_debug (tag fmt : string) (args : list arg) : M unit :=
  call "log_debug" (AStr tag :: AStr fmt :: args).
Definition log_error (tag fmt : string) (args : list arg) : M unit :=
  call "log_error" (AStr tag :: AStr fmt :: args).

Definition binc_adapter_get_path (adapter : ptr) : M arg :=
  call_returning "binc_adapter_get_path" [APtr adapter] id
    (AOf "binc_adapter_get_path" adapter).

Definition binc_adapter_stop_advertising (adapter adv : ptr) : M unit :=
  call "binc_adapter_stop_advertising" [APtr adapter; APtr adv].
Definition binc_adapter_start_advertising (adapter adv : ptr) : M unit :=
  call "binc_adapter_start_advertising" [APtr adapter; APtr adv].

(** ** [on_powered_state_changed], lines 48-50 *)

Definition on_powered_state_changed (adapter : ptr) (st : bool) : M unit :=
  path <- binc_adapter_get_path adapter ;;
  log_debug TAG "powered '%s' (%s)" [AStr (if st then "on" else "off"); path].

(** ** [on_central_state_changed], lines 52-64 *)

Definition on_central_state_changed (adapter : ptr) (device : Device) : M unit :=
  let deviceToString := ADev "binc_device_to_string" device in
  call "log_debug" [AStr TAG; deviceToString] ;;
  call "g_free" [deviceToString] ;;

  log_debug TAG "remote central %s is %s"
    [AStr (binc_device_get_address device);
     ADev "binc_device_get_connection_state_name" device] ;;
  let st := binc_device_get_connection_state device in
  if bool_decide (st = BINC_CONNECTED) then
    advertisement <- global Session.advertisement ;;
    binc_adapter_stop_advertising adapter advertisement
  else if bool_decide (st = BINC_DISCONNECTED) then
    advertisement <- global Session.advertisement ;;
    binc_adapter_start_advertising adapter advertisement
  else ret tt.

(** ** The GATT application object and [on_local_char_read], lines 68-79 *)

(** A characteristic of the attribute tree: property flags, the stored
    value (unset until first written) and the subscription flag. *)
Record Characteristic : Type := mkCharacteristic {
  properties : list string;
  value : option (list Byte.byte);
  notifying : bool
}.

(** The application's characteristics, keyed by service and characteristic
    UUID. *)
Abbreviation Application := (gmap (string * string) Characteristic).

(** Modelled from the spec: [binc_application_set_char_value] lives in the
    library's [application.c], which is not part of the example.  It sets
    the stored value directly and fails (here: changes nothing) when the
    characteristic is unknown. *)
Definition binc_application_set_char_value
    (application : Application) (service_uuid char_uuid : string)
    (byteArray : list Byte.byte) : Application :=
  match application !! (service_uuid, char_uuid) with
  | Some c => <[(service_uuid, char_uuid) :=
                  mkCharacteristic (properties c) (Some byteArray) (notifying c)]> application
  | None => application
  end.

(** Modelled from the spec: the macro [BLUEZ_ERROR_REJECTED] is declared in a
    library header that is not part of the example; it is the rejection code
    a callback returns to refuse a request.  A callback returns [None] (the
    C [NULL]) to accept. *)
Definition BLUEZ_ERROR_REJECTED : string := "org.bluez.Error.Rejected".

Definition g_str_equal (a b : string) : bool := String.eqb a b.

(** The thirteen bytes of the temperature measurement, line 71. *)
Definition temperature_bytes : list Byte.byte :=
  [Byte.x06; Byte.x6f; Byte.x01; Byte.x00; Byte.xff; Byte.xe6; Byte.x07;
   Byte.x03; Byte.x03; Byte.x10; Byte.x04; Byte.x00; Byte.x01].

(** The callback receives a pointer to the application and changes it
    through the library; here the application is passed in and out.  The
    temporary [GByteArray] is the byte list itself. *)
Definition on_local_char_read
    (application : Application) (address service_uuid char_uuid : string)
    (mtu offset : Z) : option string * Application :=
  if g_str_equal service_uuid HTS_SERVICE_UUID
     && g_str_equal char_uuid TEMPERATURE_CHAR_UUID then
    let bytes := temperature_bytes in
    let byteArray := bytes in
    (None,
     binc_application_set_char_value application service_uuid char_uuid byteArray)
  else
    (Some BLUEZ_ERROR_REJECTED, application).

(** What a central gets back from a read request: the stored value, which
    may be unset, or a rejection code. *)
Inductive read_reply : Type :=
| ReadValue (bytes : option (list Byte.byte))
| ReadRejected (code : string).

(** Modelled from the spec: how the library ([application.c], not part of
    the example) answers a central's read request.  It invokes the read
    callback; a rejection code aborts the read; otherwise the stored value
    of the characteristic is what the central reads back. *)
Definition read_request
    (application : Application) (address service_uuid char_uuid : string)
    (mtu offset : Z) : read_reply * Application :=
  match on_local_char_read application address service_uuid char_uuid mtu offset with
  | (Some code, application') => (ReadRejected code, application')
  | (None, application') =>
      (ReadValue (c ← application' !! (service_uuid, char_uuid); value c),
       application')
  end.

(** ** The agent callbacks, lines 114-128 *)

Definition on_request_authorization (device : Device) : M bool :=
  log_debug TAG "requesting authorization for '%s"
    [AOptStr (binc_device_get_name device)] ;;
  ret true.

(** [fscanf(stdin, "%d", &pass)]: skip white space, read an optional sign
    and a non-empty run of decimal digits.  The result is the number of
    items assigned (1), 0 on a matching failure, or [EOF]. *)
Definition EOF : Z := -1.

Definition isspace (c : ascii) : bool :=
  let n := Z.of_nat (nat_of_ascii c) in
  (n =? 32) || ((9 <=? n) && (n <=? 13)).

Definition digit_value (c : ascii) : option Z :=
  let n := Z.of_nat (nat_of_ascii c) in
  if (48 <=? n) && (n <=? 57) then Some (n - 48) else None.

Fixpoint skip_spaces (s : string) : string :=
  match s with
  | String c s' => if isspace c then skip_spaces s' else s
  | EmptyString => s
  end.

Fixpoint read_digits (acc : Z) (s : string) : Z * string :=
  match s with
  | String c s' =>
      match digit_value c with
      | Some d => read_digits (10 * acc + d) s'
      | None => (acc, s)
      end
  | EmptyString => (acc, s)
  end.

(** A numeral that does not fit a [long] is read as the nearest [long]
    (glibc converts with [strtol]; ISO C leaves the case undefined). *)
Definition saturate_long (z : Z) : Z := Z.max (- 2 ^ 63) (Z.min (2 ^ 63 - 1) z).

(** The items assigned, the number read (if any) and the unread input.
    Input that ends before any character of the number gives [EOF]; a
    sign with no digit after it is a matching failure. *)
Definition scan_int (input : string) : Z * option Z * string :=
  match skip_spaces input with
  | EmptyString => (EOF, None, EmptyString)
  | String c rest =>
      let negative := Ascii.eqb c "-" in
      let body := if negative || Ascii.eqb c "+" then rest else String c rest in
      match body with
      | EmptyString => (0, None, EmptyString)
      | String d _ =>
          match digit_value d with
          | None => (0, None, body)
          | Some _ =>
              let '(n, rest') := read_digits 0 body in
              (1, Some (saturate_long (if negative then - n else n)), rest')
          end
      end
  end.

(** [pass] is a [guint32]: the number [fscanf] read is stored as an [int]
    and read back modulo 2^32. *)
Definition to_guint32 (z : Z) : Z := z mod 2 ^ 32.

Definition fscanf_stdin_d : M (Z * option Z) :=
  fun s =>
    let '(items, stored, rest) := scan_int (stdin s) in
    ((items, stored), with_stdin rest s,
     [Call "fscanf" [AStr "stdin"; AStr "%d"] (AInt items)]).

Definition on_request_passkey (device : Device) : M Z :=
  let pass := 0 in
  log_debug TAG "requesting passkey for '%s" [AOptStr (binc_device_get_name device)] ;;
  log_debug TAG "Enter 6 digit pin code: " [] ;;
  scanned <- fscanf_stdin_d ;;
  let result := fst scanned in
  let pass := match snd scanned with Some v => to_guint32 v | None => pass end in
  when (negb (result =? 1)) (log_debug TAG "didn't read a pin code" []) ;;
  ret pass.

(** Modelled from the spec: the agent (the library's [agent.c], not part of
    the example) answers the daemon's passkey prompt by invoking the
    callback and replying with the value it returned, unmodified. *)
Definition agent_request_passkey (device : Device) : M unit :=
  pass <- on_request_passkey device ;;
  call "RequestPasskey.reply" [AInt pass].

(** Modelled from the spec: likewise for the authorization prompt; the
    reply carries the callback's decision. *)
Definition agent_request_authorization (device : Device) : M unit :=
  allow <- on_request_authorization device ;;
  call "RequestAuthorization.reply" [ABool allow].

(** ** The shutdown sequence: [callback], lines 130-154 *)

Definition binc_agent_free (p : ptr) : M unit := call "binc_agent_free" [APtr p].
Definition binc_application_free (p : ptr) : M unit := call "binc_application_free" [APtr p].
Definition binc_advertisement_free (p : ptr) : M unit := call "binc_advertisement_free" [APtr p].
Definition binc_adapter_free (p : ptr) : M unit := call "binc_adapter_free" [APtr p].
Definition binc_adapter_unregister_application (adapter application : ptr) : M unit :=
  call "binc_adapter_unregister_application" [APtr adapter; APtr application].

(** [g_main_loop_quit] clears the loop's running flag; on [NULL] GLib's
    argument check returns without doing anything. *)
Definition g_main_loop_quit (l : ptr) : M unit :=
  call "g_main_loop_quit" [APtr l] ;;
  when (negb (is_null l)) (modify (with_is_running false)).

Definition callback (data : ptr) : M bool :=
  agent <- global Session.agent ;;
  when (negb (is_null agent)) (
    binc_agent_free agent ;;
    assign Session.set_agent NULL) ;;

  app <- global Session.app ;;
  when (negb (is_null app)) (
    default_adapter <- global Session.default_adapter ;;
    binc_adapter_unregister_application default_adapter app ;;
    binc_application_free app ;;
    assign Session.set_app NULL) ;;

  advertisement <- global Session.advertisement ;;
  when (negb (is_null advertisement)) (
    default_adapter <- global Session.default_adapter ;;
    binc_adapter_stop_advertising default_adapter advertisement ;;
    binc_advertisement_free advertisement) ;;

  default_adapter <- global Session.default_adapter ;;
  when (negb (is_null default_adapter)) (
    binc_adapter_free default_adapter ;;
    assign Session.set_default_adapter NULL) ;;

  g_main_loop_quit data ;;
  ret false.

(** ** [cleanup_handler], lines 156-161 *)

Definition cleanup_handler (signo : Z) : M unit :=
  when (signo =? SIGINT) (
    log_error TAG "received SIGINT" [] ;;
    loop <- global Session.loop ;;
    callback loop ;;
    ret tt).

(** ** [main], lines 163-250 *)

(** Constants of the library headers, by name. *)
Definition AConst (names : list string) : arg := AStr (String.concat " | " names).

Definition g_bus_get_sync : M ptr :=
  fun s =>
    let args := [AStr "G_BUS_TYPE_SYSTEM"; APtr NULL; APtr NULL] in
    if bus_available (env s)
    then construct "g_bus_get_sync" args s
    else call_returning "g_bus_get_sync" args APtr NULL s.

(** [signal]: [true] when it returns [SIG_ERR]. *)
Definition signal (signo : Z) (handler : string) : M bool :=
  fun s =>
    let failed := negb (signal_installable (env s)) in
    (failed, with_sigint_handler (sigint_handler s || negb failed) s,
     [Call "signal" [AInt signo; AFun handler] (ABool failed)]).

Definition binc_adapter_get_default (dbusConnection : ptr) : M ptr :=
  fun s =>
    let args := [APtr dbusConnection] in
    if adapter_present (env s)
    then construct "binc_adapter_get_default" args s
    else call_returning "binc_adapter_get_default" args APtr NULL s.

Definition binc_adapter_get_powered_state (adapter : ptr) : M bool :=
  fun s => call_returning "binc_adapter_get_powered_state" [APtr adapter] ABool
             (adapter_powered (env s)) s.

Definition binc_adapter_power_on (adapter : ptr) : M unit :=
  call "binc_adapter_power_on" [APtr adapter].

Definition binc_adapter_register_application (adapter application : ptr) : M unit :=
  call "binc_adapter_register_application" [APtr adapter; APtr application].

(** [g_timeout_add_seconds(interval, callback, data)]: [callback] is the
    only source function of the program. *)
Definition g_timeout_add_seconds (interval : Z) (data : ptr) : M unit :=
  call "g_timeout_add_seconds" [AInt interval; AFun "callback"; APtr data] ;;
  modify (fun s => with_timeouts (timeouts s ++ [(interval, data)]) s).

(** The [NUL]-terminated array [cud], line 222; [sizeof] counts the
    terminator. *)
Definition cud : list Byte.byte := list_byte_of_string "hello there" ++ [Byte.x00].

(** The body of [if (default_adapter != NULL)], lines 178-232. *)
Definition main_setup_peripheral : M unit :=
  default_adapter <- global Session.default_adapter ;;
  path <- binc_adapter_get_path default_adapter ;;
  log_debug TAG "using default_adapter '%s'" [path] ;;

  (* Make sure the adapter is on *)
  call "binc_adapter_set_powered_state_cb"
       [APtr default_adapter; AFun "on_powered_state_changed"] ;;
  powered <- binc_adapter_get_powered_state default_adapter ;;
  when (negb powered) (binc_adapter_power_on default_adapter) ;;

  (* Register an agent and set callbacks *)
  agent <- construct "binc_agent_create"
             [APtr default_adapter; AStr "/org/bluez/BincAgent"; AConst ["KEYBOARD_DISPLAY"]] ;;
  assign Session.set_agent agent ;;
  call "binc_agent_set_request_authorization_cb" [APtr agent; AFun "on_request_authorization"] ;;
  call "binc_agent_set_request_passkey_cb" [APtr agent; AFun "on_request_passkey"] ;;

  (* Setup remote central connection state callback *)
  call "binc_adapter_set_remote_central_cb"
       [APtr default_adapter; AFun "on_central_state_changed"] ;;

  (* Setup advertisement *)
  adv_service_uuids <- construct "g_ptr_array_new" [] ;;
  call "g_ptr_array_add" [APtr adv_service_uuids; AStr HTS_SERVICE_UUID] ;;

  advertisement <- construct "binc_advertisement_create" [] ;;
  assign Session.set_advertisement advertisement ;;
  call "binc_advertisement_set_local_name" [APtr advertisement; AStr "BINC"] ;;
  call "binc_advertisement_set_secondary_channel" [APtr advertisement; AConst ["BINC_SC_2M"]] ;;
  call "binc_advertisement_set_interval" [APtr advertisement; AInt 500; AInt 500] ;;
  call "binc_advertisement_set_tx_power" [APtr advertisement; AInt 5] ;;
  call "binc_advertisement_set_services" [APtr advertisement; APtr adv_service_uuids] ;;
  call "g_ptr_array_free" [APtr adv_service_uuids; ABool true] ;;
  binc_adapter_start_advertising default_adapter advertisement ;;

  (* Start application *)
  app <- construct "binc_create_application" [APtr default_adapter] ;;
  assign Session.set_app app ;;
  call "binc_application_add_service" [APtr app; AStr HTS_SERVICE_UUID] ;;
  call "binc_application_add_characteristic"
       [APtr app; AStr HTS_SERVICE_UUID; AStr TEMPERATURE_CHAR_UUID;
        AConst ["GATT_CHR_PROP_INDICATE"; "GATT_CHR_PROP_WRITE"]] ;;
  call "binc_application_add_descriptor"
       [APtr app; AStr HTS_SERVICE_UUID; AStr TEMPERATURE_CHAR_UUID; AStr CUD_CHAR;
        AConst ["GATT_CHR_PROP_READ"; "GATT_CHR_PROP_WRITE"]] ;;

  cudArray <- construct "g_byte_array_sized_new" [AInt (Z.of_nat (length cud))] ;;
  call "g_byte_array_append" [APtr cudArray; ABytes cud; AInt (Z.of_nat (length cud))] ;;
  call "binc_application_set_desc_value"
       [APtr app; AStr HTS_SERVICE_UUID; AStr TEMPERATURE_CHAR_UUID; AStr CUD_CHAR;
        APtr cudArray] ;;

  call "binc_application_set_char_read_cb" [APtr app; AFun "on_local_char_read"] ;;
  call "binc_application_set_char_write_cb" [APtr app; AFun "on_local_char_write"] ;;
  call "binc_application_set_char_start_notify_cb" [APtr app; AFun "on_local_char_start_notify"] ;;
  call "binc_application_set_char_stop_notify_cb" [APtr app; AFun "on_local_char_stop_notify"] ;;
  call "binc_application_set_char_updated_cb" [APtr app; AFun "on_local_char_updated"] ;;
  binc_adapter_register_application default_adapter app.

(** Lines 164-238: everything [main] does before it enters the loop.  The
    result is the D-Bus connection. *)
Definition main_startup : M ptr :=
  (* Get a DBus connection *)
  dbusConnection <- g_bus_get_sync ;;

  (* Setup handler for CTRL+C *)
  sig_err <- signal SIGINT "cleanup_handler" ;;
  when sig_err (log_error TAG "can't catch SIGINT" []) ;;

  (* Setup mainloop *)
  l <- construct "g_main_loop_new" [APtr NULL; ABool false] ;;
  assign Session.set_loop l ;;

  (* Get the default default_adapter *)
  a <- binc_adapter_get_default dbusConnection ;;
  assign Session.set_default_adapter a ;;

  default_adapter <- global Session.default_adapter ;;
  (if negb (is_null default_adapter)
   then main_setup_peripheral
   else log_debug "MAIN" "No default_adapter found" []) ;;

  (* Bail out after some time *)
  loop <- global Session.loop ;;
  g_timeout_add_seconds 600 loop ;;
  ret dbusConnection.

(** What the main loop delivers to the program in this model: the timeout,
    SIGINT, and the events behind the adapter and agent callbacks.  The
    GATT requests behind the five characteristic callbacks are not events
    of the model; those callbacks are modelled on their own. *)
Inductive loop_event : Type :=
| TimeoutElapsed                          (* the first timeout source is due *)
| Interrupt                               (* SIGINT is delivered *)
| PoweredStateChanged (powered : bool)    (* the adapter's power property changed *)
| CentralStateChanged (device : Device)   (* a central's connection state changed *)
| AuthorizationRequested (device : Device)
| PasskeyRequested (device : Device).

#[global] Instance loop_event_eq_dec : EqDecision loop_event.
Proof. solve_decision. Defined.

(** One event.  GLib calls a due source function with its data and drops
    the source when the function returns [FALSE]; SIGINT runs the installed
    handler, and with no handler installed its default action terminates
    the process; the library calls the adapter callbacks with the adapter
    they were set on, and the agent answers prompts while it exists.  The
    result tells whether the process survives the event. *)
Definition dispatch (e : loop_event) : M bool :=
  match e with
  | TimeoutElapsed =>
      sources <- get timeouts ;;
      match sources with
      | [] => ret true
      | (_, data) :: rest =>
          again <- callback data ;;
          when (negb again) (modify (with_timeouts rest)) ;;
          ret true
      end
  | Interrupt =>
      installed <- get sigint_handler ;;
      if installed then cleanup_handler SIGINT ;; ret true
      else ret false
  | PoweredStateChanged powered =>
      adapter <- global Session.default_adapter ;;
      when (negb (is_null adapter)) (on_powered_state_changed adapter powered) ;;
      ret true
  | CentralStateChanged device =>
      adapter <- global Session.default_adapter ;;
      when (negb (is_null adapter)) (on_central_state_changed adapter device) ;;
      ret true
  | AuthorizationRequested device =>
      agent <- global Session.agent ;;
      when (negb (is_null agent)) (agent_request_authorization device) ;;
      ret true
  | PasskeyRequested device =>
      agent <- global Session.agent ;;
      when (negb (is_null agent)) (agent_request_passkey device) ;;
      ret true
  end.

(** The loop dispatches events while its running flag is set and the
    process lives.  The result is [true] when the loop was quit, [false]
    when it was not: the loop is still waiting after the last event of
    [events], or the process was terminated. *)
Fixpoint iterate (events : list loop_event) : M bool :=
  running <- get is_running ;;
  if negb running then ret true
  else match events with
       | [] => ret false
       | e :: events' =>
           alive <- dispatch e ;;
           if alive then iterate events' else ret false
       end.

Definition g_main_loop_run (l : ptr) (events : list loop_event) : M bool :=
  call "g_main_loop_run" [APtr l] ;;
  modify (with_is_running true) ;;
  iterate events.

(** Lines 240-249: the loop and what follows it, on the events the loop
    receives.  The result is [Some 0] when [main] returns, [None] when it
    does not: it is still inside [g_main_loop_run] after the last event, or
    the process was terminated there. *)
Definition main_serve (events : list loop_event) (dbusConnection : ptr) : M (option Z) :=
  (* Start the mainloop *)
  loop <- global Session.loop ;;
  quit <- g_main_loop_run loop events ;;
  if quit then
    (* Clean up mainloop *)
    call "g_main_loop_unref" [APtr loop] ;;
    (* Disconnect from DBus *)
    call "g_dbus_connection_close_sync" [APtr dbusConnection; APtr NULL; APtr NULL] ;;
    call "g_object_unref" [APtr dbusConnection] ;;
    ret (Some 0)
  else ret None.

Definition main (events : list loop_event) : M (option Z) :=
  dbusConnection <- main_startup ;;
  main_serve events dbusConnection.

(** Running the program from its initial state. *)
Definition run_main (e : environment) (input : string) (events : list loop_event)
  : option Z * state * list event :=
  main events (initial_state e input).

(** ** The write and notification callbacks, lines 81-112 *)

(** These callbacks receive the application as a pointer and only hand it
    on to the library.  [g_byte_array_as_hex] returns a fresh [GString],
    whose [str] field is what gets logged. *)
Definition g_byte_array_as_hex (byteArray : list Byte.byte) : M ptr :=
  construct "g_byte_array_as_hex" [ABytes byteArray].

Definition on_local_char_write
    (application : ptr) (address service_uuid char_uuid : string)
    (byteArray : list Byte.byte) (mtu offset : Z) : M (option string) :=
  result <- g_byte_array_as_hex byteArray ;;
  log_debug TAG "write request characteristic <%s> with value <%s>"
    [AStr char_uuid; AOf "str" result] ;;
  call "g_string_free" [APtr result; ABool true] ;;

  ret None.

Definition on_local_char_updated
    (application : ptr) (service_uuid char_uuid : string)
    (byteArray : list Byte.byte) : M unit :=
  result <- g_byte_array_as_hex byteArray ;;
  log_debug TAG "characteristic <%s> updated to <%s>"
    [AStr char_uuid; AOf "str" result] ;;
  call "g_string_free" [APtr result; ABool true].

(** The thirteen bytes of the notification, line 102. *)
Definition notification_bytes : list Byte.byte :=
  [Byte.x06; Byte.x6a; Byte.x01; Byte.x00; Byte.xff; Byte.xe6; Byte.x07;
   Byte.x03; Byte.x03; Byte.x10; Byte.x04; Byte.x00; Byte.x01].

Definition on_local_char_start_notify
    (application : ptr) (service_uuid char_uuid : string) : M unit :=
  log_debug TAG "on start notify" [] ;;
  when (g_str_equal service_uuid HTS_SERVICE_UUID
        && g_str_equal char_uuid TEMPERATURE_CHAR_UUID) (
    let bytes := notification_bytes in
    byteArray <- construct "g_byte_array_sized_new" [AInt (Z.of_nat (length bytes))] ;;
    call "g_byte_array_append"
         [APtr byteArray; ABytes bytes; AInt (Z.of_nat (length bytes))] ;;
    call "binc_application_notify"
         [APtr application; AStr service_uuid; AStr char_uuid; APtr byteArray] ;;
    call "g_byte_array_free" [APtr byteArray; ABool true]).

Definition on_local_char_stop_notify
    (application : ptr) (service_uuid char_uuid : string) : M unit :=
  log_debug TAG "on stop notify" [].

(** ** Vocabulary for the properties *)

Definition stop_advertising_call (adapter adv : ptr) : event :=
  Call "binc_adapter_stop_advertising" [APtr adapter; APtr adv] AVoid.
Definition start_advertising_call (adapter adv : ptr) : event :=
  Call "binc_adapter_start_advertising" [APtr adapter; APtr adv] AVoid.

(** The advertising calls of a trace, in order. *)
Definition advertising_calls (t : list event) : list event :=
  List.filter (fun e => is_call "binc_adapter_stop_advertising" e
                        || is_call "binc_adapter_start_advertising" e) t.

(** Steps taken only for an object that exists. *)
Definition if_set (p : ptr) (steps : list event) : list event :=
  if is_null p then [] else steps.

(** The teardown order the specification prescribes, written from its
    words: agent, then application (unregister, free), then advertisement
    (stop, free), then adapter, then the loop. *)
Definition specified_shutdown_order (g : Session.t) (data : ptr) : list event :=
  if_set (Session.agent g)
    [Call "binc_agent_free" [APtr (Session.agent g)] AVoid]
  ++ if_set (Session.app g)
    [Call "binc_adapter_unregister_application"
          [APtr (Session.default_adapter g); APtr (Session.app g)] AVoid;
     Call "binc_application_free" [APtr (Session.app g)] AVoid]
  ++ if_set (Session.advertisement g)
    [stop_advertising_call (Session.default_adapter g) (Session.advertisement g);
     Call "binc_advertisement_free" [APtr (Session.advertisement g)] AVoid]
  ++ if_set (Session.default_adapter g)
    [Call "binc_adapter_free" [APtr (Session.default_adapter g)] AVoid]
  ++ [Call "g_main_loop_quit" [APtr data] AVoid].

(** How often an object is handed to a call. *)
Definition occurrences (e : event) (t : list event) : nat :=
  length (List.filter (fun e' => bool_decide (e' = e)) t).

(** A session right after startup on a machine with an adapter. *)
Definition env_with_adapter (powered : bool) : environment := mkEnv true true true powered.
Definition env_without_adapter : environment := mkEnv true true false false.

Definition started (e : environment) (input : string) : state :=
  state_after main_startup (initial_state e input).

(** What a call tells the program about the adapter's power: the answer of
    [binc_adapter_get_powered_state], or the state the power callback was
    given, which [on_powered_state_changed] logs. *)
Definition power_report (e : event) : option bool :=
  if is_call "binc_adapter_get_powered_state" e then
    match result e with
    | ABool b => Some b
    | _ => None
    end
  else if is_call "log_debug" e then
    match arguments e with
    | [AStr _; AStr fmt; AStr st; AOf _ _] =>
        if String.eqb fmt "powered '%s' (%s)" then Some (String.eqb st "on") else None
    | _ => None
    end
  else None.

(** Every [binc_adapter_register_application] call of [t] is issued while
    [ok] holds, where [track] updates [ok] at each call. *)
Fixpoint registrations_guarded (track : bool -> event -> bool) (ok : bool)
    (t : list event) : bool :=
  match t with
  | [] => true
  | e :: t' =>
      (negb (is_call "binc_adapter_register_application" e) || ok)
      && registrations_guarded track (track ok e) t'
  end.

(** The adapter's latest report says it is powered. *)
Definition powered_reported (before : bool) (e : event) : bool :=
  match power_report e with
  | Some b => b
  | None => before
  end.

(** The latest report says powered, or power-on was requested since. *)
Definition powered_or_requested (before : bool) (e : event) : bool :=
  if is_call "binc_adapter_power_on" e then true else powered_reported before e.

(** A computation that never calls [f]. *)
Definition never_calls {A} (f : string) (m : M A) : Prop :=
  forall s, Forall (fun e => callee e <> f) (calls_of m s).

(** A computation that leaves the component [f] of the state as it was. *)
Definition preserves {A X} (f : state -> X) (m : M A) : Prop :=
  forall s, f (state_after m s) = f s.

(** The calls only [main]'s startup makes: registration and the three
    constructors. *)
Definition startup_only : list string :=
  ["binc_adapter_register_application"; "binc_agent_create";
   "binc_advertisement_create"; "binc_create_application"].

(** The diagnostic of the branch without adapter, line 234. *)
Definition no_adapter_diagnostic : event :=
  Call "log_debug" [AStr "MAIN"; AStr "No default_adapter found"] AVoid.

(** The session is aborted: the program never enters its event loop. *)
Definition session_aborted (t : list event) : Prop :=
  calls_to "g_main_loop_run" t = [].

(** The application [main] builds: the health-thermometer service with
    the temperature characteristic, value not yet set. *)
Definition thermometer : Application :=
  {[ (HTS_SERVICE_UUID, TEMPERATURE_CHAR_UUID) :=
       mkCharacteristic ["GATT_CHR_PROP_INDICATE"; "GATT_CHR_PROP_WRITE"] None false ]}.

(** The round trip of the specification, written from its words: after
    setting the value to [v], a read yields [v] and leaves the
    application as it was. *)
Definition read_round_trip (application : Application)
    (service_uuid char_uuid : string) (v : list Byte.byte) : Prop :=
  forall (address : string) (mtu offset : Z),
    let stored := binc_application_set_char_value application service_uuid char_uuid v in
    read_request stored address service_uuid char_uuid mtu offset
    = (ReadValue (Some v), stored).

(** A six-digit numeric code. *)
Definition six_digit_code (pass : Z) : Prop := 0 <= pass <= 999999.

(** The central of the pairing scenario. *)
Definition central_1 : Device :=
  mkDevice "AA:BB:CC:DD:EE:FF" (Some "central-1") BINC_CONNECTED false.

(** ** Vocabulary for the further properties *)

(** A computation all of whose calls go to callees in [allowed]. *)
Definition calls_within {A} (allowed : list string) (m : M A) : Prop :=
  forall s, Forall (fun e => In (callee e) allowed) (calls_of m s).

(** The two events that run the shutdown sequence. *)
Definition is_shutdown_trigger (e : loop_event) : bool :=
  match e with
  | TimeoutElapsed | Interrupt => true
  | _ => false
  end.

(** The callees of the calls recorded for the handlers of the other
    events. *)
Definition serving_callees : list string :=
  ["log_debug"; "g_free"; "binc_adapter_get_path";
   "binc_adapter_stop_advertising"; "binc_adapter_start_advertising";
   "fscanf"; "RequestPasskey.reply"; "RequestAuthorization.reply"].

(** The callees of the calls recorded for the shutdown sequence. *)
Definition shutdown_callees : list string :=
  ["log_error"; "binc_agent_free"; "binc_adapter_unregister_application";
   "binc_application_free"; "binc_adapter_stop_advertising";
   "binc_advertisement_free"; "binc_adapter_free"; "g_main_loop_quit"].

(** The part of the state that only startup and shutdown may change. *)
Definition session_of (s : state)
  : Session.t * list (Z * ptr) * bool * bool * nat * environment :=
  (globals s, timeouts s, is_running s, sigint_handler s, next_handle s, env s).

(** The advertising calls the policy of [on_central_state_changed]
    prescribes for one event. *)
Definition advertising_policy (adapter adv : ptr) (e : loop_event) : list event :=
  match e with
  | CentralStateChanged device =>
      match binc_device_get_connection_state device with
      | BINC_CONNECTED => [stop_advertising_call adapter adv]
      | BINC_DISCONNECTED => [start_advertising_call adapter adv]
      | BINC_CONNECTING | BINC_DISCONNECTING => []
      end
  | _ => []
  end.

(** What the handlers of power, authorization and passkey events may
    call. *)
Definition prompt_callees : list string :=
  ["log_debug"; "binc_adapter_get_path"; "fscanf";
   "RequestPasskey.reply"; "RequestAuthorization.reply"].

Definition is_central_event (e : loop_event) : bool :=
  match e with
  | CentralStateChanged _ => true
  | _ => false
  end.

(** The three calls with which [main] leaves, lines 244-248. *)
Definition main_exit_calls (loop dbusConnection : ptr) : list event :=
  [Call "g_main_loop_unref" [APtr loop] AVoid;
   Call "g_dbus_connection_close_sync" [APtr dbusConnection; APtr NULL; APtr NULL] AVoid;
   Call "g_object_unref" [APtr dbusConnection] AVoid].

(** The calls that end a session: teardown, quitting the loop and the exit
    of [main]. *)
Definition ending_callees : list string :=
  ["binc_agent_free"; "binc_adapter_unregister_application";
   "binc_application_free"; "binc_advertisement_free"; "binc_adapter_free";
   "g_main_loop_quit"; "g_main_loop_unref"; "g_dbus_connection_close_sync";
   "g_object_unref"].

Definition exit_callees : list string :=
  ["g_main_loop_unref"; "g_dbus_connection_close_sync"; "g_object_unref"].

(** The object a call frees. *)
Definition freed_by (e : event) : option ptr :=
  if existsb (String.eqb (callee e))
       ["binc_agent_free"; "binc_application_free";
        "binc_advertisement_free"; "binc_adapter_free"]
  then match arguments e with
       | [APtr p] => Some p
       | _ => None
       end
  else None.

(** The objects a call receives: its non-[NULL] pointer arguments. *)
Definition objects_of (e : event) : list ptr :=
  List.flat_map (fun a => match a with
                          | APtr (Ptr h) => [Ptr h]
                          | _ => []
                          end) (arguments e).

(** No call of [t] receives an object of [freed] or one that an earlier
    call of [t] has freed. *)
Fixpoint no_use_after_free (freed : list ptr) (t : list event) : bool :=
  match t with
  | [] => true
  | e :: t' =>
      forallb (fun p => negb (bool_decide (p ∈ freed))) (objects_of e)
      && no_use_after_free
           (match freed_by e with
            | Some p => p :: freed
            | None => freed
            end) t'
  end.

(** The objects the shutdown sequence works on. *)
Definition shutdown_objects (g : Session.t) (data : ptr) : list ptr :=
  List.filter (fun p => negb (is_null p))
    [Session.agent g; Session.app g; Session.advertisement g;
     Session.default_adapter g; data].

(** Every call to [b] in [t] comes after a call to [a] ([seen]: a call to
    [a] was made before [t]). *)
Fixpoint preceded (a b : string) (seen : bool) (t : list event) : bool :=
  match t with
  | [] => true
  | e :: t' =>
      (negb (is_call b e) || seen) && preceded a b (seen || is_call a e) t'
  end.

(** What [main] sets up before what it activates: the power callback before
    power-on; the central callback, the agent callbacks and the advertised
    services before advertising; the attribute tree and the five
    characteristic callbacks before registration. *)
Definition setup_before_activation : list (string * string) :=
  [("binc_adapter_set_powered_state_cb", "binc_adapter_power_on");
   ("binc_adapter_set_remote_central_cb", "binc_adapter_start_advertising");
   ("binc_agent_set_request_authorization_cb", "binc_adapter_start_advertising");
   ("binc_agent_set_request_passkey_cb", "binc_adapter_start_advertising");
   ("binc_advertisement_set_services", "binc_adapter_start_advertising");
   ("binc_application_add_service", "binc_adapter_register_application");
   ("binc_application_add_characteristic", "binc_adapter_register_application");
   ("binc_application_add_descriptor", "binc_adapter_register_application");
   ("binc_application_set_desc_value", "binc_adapter_register_application");
   ("binc_application_set_char_read_cb", "binc_adapter_register_application");
   ("binc_application_set_char_write_cb", "binc_adapter_register_application");
   ("binc_application_set_char_start_notify_cb", "binc_adapter_register_application");
   ("binc_application_set_char_stop_notify_cb", "binc_adapter_register_application");
   ("binc_application_set_char_updated_cb", "binc_adapter_register_application")].

(** No call of [t] that follows a call to [b] goes to a callee of
    [forbidden] ([seen]: a call to [b] was made before [t]). *)
Fixpoint none_after (b : string) (forbidden : list string) (seen : bool)
    (t : list event) : bool :=
  match t with
  | [] => true
  | e :: t' =>
      (negb seen || negb (existsb (String.eqb (callee e)) forbidden))
      && none_after b forbidden (seen || is_call b e) t'
  end.

(** The library calls that create or configure an adapter, agent,
    advertisement or application object. *)
Definition configuring_callees : list string :=
  ["binc_create_application"; "binc_application_add_service";
   "binc_application_add_characteristic"; "binc_application_add_descriptor";
   "binc_application_set_desc_value"; "binc_application_set_char_read_cb";
   "binc_application_set_char_write_cb"; "binc_application_set_char_start_notify_cb";
   "binc_application_set_char_stop_notify_cb"; "binc_application_set_char_updated_cb";
   "binc_advertisement_create"; "binc_advertisement_set_local_name";
   "binc_advertisement_set_secondary_channel"; "binc_advertisement_set_interval";
   "binc_advertisement_set_tx_power"; "binc_advertisement_set_services";
   "binc_agent_create"; "binc_agent_set_request_authorization_cb";
   "binc_agent_set_request_passkey_cb"; "binc_adapter_set_powered_state_cb";
   "binc_adapter_set_remote_central_cb"; "binc_adapter_power_on";
   "binc_adapter_get_default"].

(** The GLib container a call allocates, and the one it releases. *)
Definition allocated_by (e : event) : option ptr :=
  if existsb (String.eqb (callee e))
       ["g_ptr_array_new"; "g_byte_array_sized_new"; "g_byte_array_as_hex"]
  then match result e with
       | APtr p => Some p
       | _ => None
       end
  else None.

Definition released_by (e : event) : option ptr :=
  if existsb (String.eqb (callee e))
       ["g_ptr_array_free"; "g_byte_array_free"; "g_string_free"]
  then match arguments e with
       | APtr p :: _ => Some p
       | _ => None
       end
  else None.

(** The containers still allocated after [t], starting from [live]. *)
Fixpoint outstanding (live : list ptr) (t : list event) : list ptr :=
  match t with
  | [] => live
  | e :: t' =>
      let live1 := match allocated_by e with
                   | Some p => live ++ [p]
                   | None => live
                   end in
      let live2 := match released_by e with
                   | Some p => List.filter (fun q => negb (bool_decide (q = p))) live1
                   | None => live1
                   end in
      outstanding live2 t'
  end.

Definition container_callees : list string :=
  ["g_ptr_array_new"; "g_byte_array_sized_new"; "g_byte_array_as_hex";
   "g_ptr_array_free"; "g_byte_array_free"; "g_string_free";
   "binc_application_set_desc_value"].

(** The byte arrays handed to [binc_application_set_desc_value]. *)
Definition descriptor_values (t : list event) : list ptr :=
  List.flat_map (fun c => match arguments c with
                          | [_; _; _; _; APtr p] => [p]
                          | _ => []
                          end)
    (calls_to "binc_application_set_desc_value" t).

(** The calls that set up, change or end a session: registration and the
    constructors, power-on, and the calls that end a session. *)
Definition session_changing_callees : list string :=
  startup_only ++ ["binc_adapter_power_on"] ++ ending_callees.

(** What the write and notification callbacks call. *)
Definition gatt_callees : list string :=
  ["log_debug"; "g_byte_array_as_hex"; "g_string_free"; "g_byte_array_sized_new";
   "g_byte_array_append"; "binc_application_notify"; "g_byte_array_free"].

(** The process survives every event except SIGINT with no handler
    installed. *)
Definition survives (e : loop_event) (s : state) : bool :=
  match e with
  | Interrupt => sigint_handler s
  | _ => true
  end.

(** * Properties *)

(** Unfolding the program on a state whose pointers are known. *)
Ltac destruct_state s :=
  let g := fresh "g" in
  destruct s as [g ? ? ? ? ? ?];
  destruct g as [? ? ? ? ?].

Ltac destruct_ptrs :=
  repeat match goal with p : ptr |- _ => destruct p end.

(** The event handlers, down to the calls they make. *)
Ltac unfold_handlers :=
  unfold dispatch, cleanup_handler, callback, agent_request_authorization,
    agent_request_passkey, on_request_authorization, on_request_passkey,
    on_central_state_changed, on_powered_state_changed, g_main_loop_quit,
    binc_agent_free, binc_application_free, binc_advertisement_free,
    binc_adapter_free, binc_adapter_unregister_application,
    binc_adapter_stop_advertising, binc_adapter_start_advertising,
    binc_adapter_get_path, log_debug, log_error, global, assign.

(** ** Calls, values and states of composed computations *)

Lemma calls_of_bind {A B} (m : M A) (k : A -> M B) (s : state) :
  calls_of (bind m k) s =
  calls_of m s ++ calls_of (k (value_of m s)) (state_after m s).
Proof.
  unfold calls_of, value_of, state_after, bind.
  destruct (m s) as [[a s1] t1]; cbn.
  destruct (k a s1) as [[b s2] t2]; reflexivity.
Qed.

Lemma state_after_bind {A B} (m : M A) (k : A -> M B) (s : state) :
  state_after (bind m k) s = state_after (k (value_of m s)) (state_after m s).
Proof.
  unfold value_of, state_after, bind.
  destruct (m s) as [[a s1] t1]; cbn.
  destruct (k a s1) as [[b s2] t2]; reflexivity.
Qed.

Lemma value_of_bind {A B} (m : M A) (k : A -> M B) (s : state) :
  value_of (bind m k) s = value_of (k (value_of m s)) (state_after m s).
Proof.
  unfold value_of, state_after, bind.
  destruct (m s) as [[a s1] t1]; cbn.
  destruct (k a s1) as [[b s2] t2]; reflexivity.
Qed.

Section NeverCalls.
Variable f : string.

Lemma never_calls_ret {A} (a : A) : never_calls f (ret a).
Proof. intros s; constructor. Qed.

Lemma never_calls_get {A} (g : state -> A) : never_calls f (get g).
Proof. intros s; constructor. Qed.

Lemma never_calls_modify (g : state -> state) : never_calls f (modify g).
Proof. intros s; constructor. Qed.

Lemma never_calls_call (g : string) (args : list arg) :
  g <> f -> never_calls f (call g args).
Proof. intros Hne s; repeat constructor; exact Hne. Qed.

Lemma never_calls_call_returning {A} (g : string) args (inj : A -> arg) (r : A) :
  g <> f -> never_calls f (call_returning g args inj r).
Proof. intros Hne s; repeat constructor; exact Hne. Qed.

Lemma never_calls_bind {A B} (m : M A) (k : A -> M B) :
  never_calls f m -> (forall a, never_calls f (k a)) -> never_calls f (bind m k).
Proof.
  intros Hm Hk s. rewrite calls_of_bind.
  apply Forall_app; split; [apply Hm | apply Hk].
Qed.

Lemma never_calls_when (b : bool) (m : M unit) :
  never_calls f m -> never_calls f (when b m).
Proof. destruct b; [trivial | intros _; apply never_calls_ret]. Qed.

Lemma never_calls_fscanf : "fscanf" <> f -> never_calls f fscanf_stdin_d.
Proof.
  intros Hne s. unfold calls_of, fscanf_stdin_d.
  destruct (scan_int (stdin s)) as [[items stored] rest].
  repeat constructor; exact Hne.
Qed.
End NeverCalls.

(** Decomposes a computation into its calls; what remains are the
    inequalities between callee names, which are closed. *)
Ltac never_calls_step :=
  first
    [ apply never_calls_ret
    | apply never_calls_get
    | apply never_calls_modify
    | apply never_calls_when
    | apply never_calls_fscanf; discriminate
    | apply never_calls_call; discriminate
    | apply never_calls_call_returning; discriminate
    | apply never_calls_bind; [ | intros ? ]
    | match goal with
      | |- never_calls _ (match ?x with _ => _ end) => destruct x
      end ].

Ltac never_calls_tac := repeat never_calls_step.

Lemma dispatch_never_calls (f : string) (e : loop_event) :
  In f startup_only -> never_calls f (dispatch e).
Proof.
  intros Hf. cbn in Hf.
  destruct Hf as [<-|[<-|[<-|[<-|[]]]]];
  destruct e; unfold_handlers; never_calls_tac.
Qed.

Lemma iterate_never_calls (f : string) (events : list loop_event) :
  In f startup_only -> never_calls f (iterate events).
Proof.
  intros Hf.
  induction events as [|e events IH]; cbn [iterate].
  - never_calls_tac.
  - apply never_calls_bind; [never_calls_tac | intros running].
    destruct (negb running); [never_calls_tac |].
    apply never_calls_bind; [apply dispatch_never_calls, Hf | intros alive].
    destruct alive; [exact IH | never_calls_tac].
Qed.

Lemma main_serve_never_calls (f : string) events (dbusConnection : ptr) :
  In f startup_only -> never_calls f (main_serve events dbusConnection).
Proof.
  intros Hf. unfold main_serve, g_main_loop_run, global.
  apply never_calls_bind; [never_calls_tac | intros loop].
  apply never_calls_bind.
  - apply never_calls_bind; [|intros _; apply never_calls_bind; [never_calls_tac|]].
    + cbn in Hf. destruct Hf as [<-|[<-|[<-|[<-|[]]]]]; never_calls_tac.
    + intros _. apply iterate_never_calls, Hf.
  - intros quit. cbn in Hf.
    destruct Hf as [<-|[<-|[<-|[<-|[]]]]]; never_calls_tac.
Qed.

Lemma calls_to_never (f : string) (t : list event) :
  Forall (fun e => callee e <> f) t -> calls_to f t = [].
Proof.
  induction 1 as [|e t He _ IH]; [reflexivity|].
  unfold calls_to in *. cbn. unfold is_call at 1.
  apply String.eqb_neq in He. rewrite He. exact IH.
Qed.

Section Preserves.
Context {X : Type} (f : state -> X).

Lemma preserves_ret {A} (a : A) : preserves f (ret a).
Proof. intros s; reflexivity. Qed.

Lemma preserves_get {A} (g : state -> A) : preserves f (get g).
Proof. intros s; reflexivity. Qed.

Lemma preserves_call (g : string) (args : list arg) : preserves f (call g args).
Proof. intros s; reflexivity. Qed.

Lemma preserves_call_returning {A} (g : string) args (inj : A -> arg) (r : A) :
  preserves f (call_returning g args inj r).
Proof. intros s; reflexivity. Qed.

Lemma preserves_modify (g : state -> state) :
  (forall s, f (g s) = f s) -> preserves f (modify g).
Proof. intros Hg s; apply Hg. Qed.

Lemma preserves_bind {A B} (m : M A) (k : A -> M B) :
  preserves f m -> (forall a, preserves f (k a)) -> preserves f (bind m k).
Proof.
  intros Hm Hk s. rewrite state_after_bind, Hk. apply Hm.
Qed.

Lemma preserves_when (b : bool) (m : M unit) :
  preserves f m -> preserves f (when b m).
Proof. destruct b; [trivial | intros _; apply preserves_ret]. Qed.

Lemma preserves_fscanf :
  (forall i s, f (with_stdin i s) = f s) -> preserves f fscanf_stdin_d.
Proof.
  intros Hf s. unfold state_after, fscanf_stdin_d.
  destruct (scan_int (stdin s)) as [[items stored] rest]. apply Hf.
Qed.
End Preserves.

Ltac preserves_step :=
  first
    [ apply preserves_ret
    | apply preserves_get
    | apply preserves_call
    | apply preserves_call_returning
    | apply preserves_when
    | apply preserves_fscanf; intros ? ?; reflexivity
    | apply preserves_modify; intros ?; reflexivity
    | apply preserves_bind; [ | intros ? ]
    | match goal with
      | |- preserves _ (match ?x with _ => _ end) => destruct x
      end ].

Lemma dispatch_keeps_timeouts (e : loop_event) :
  e <> TimeoutElapsed -> preserves timeouts (dispatch e).
Proof.
  intros He. destruct e; [congruence | ..]; unfold_handlers; repeat preserves_step.
Qed.

(** ** One turn of the loop *)

Lemma serving_keeps_session (e : loop_event) :
  is_shutdown_trigger e = false -> preserves session_of (dispatch e).
Proof.
  intros He. destruct e; try discriminate He; unfold_handlers; repeat preserves_step.
Qed.

Lemma session_of_running (s s' : state) :
  session_of s' = session_of s ->
  is_running s' = is_running s /\ globals s' = globals s.
Proof. unfold session_of. intros H. injection H as ? ? ? ? ? ?. auto. Qed.

Lemma dispatch_keeps_handler (e : loop_event) :
  preserves sigint_handler (dispatch e).
Proof. destruct e; unfold_handlers; repeat preserves_step. Qed.

Lemma dispatch_survives (e : loop_event) (s : state) :
  value_of (dispatch e) s = survives e s.
Proof.
  destruct e; cbn [dispatch survives].
  - rewrite value_of_bind.
    change (value_of (get timeouts) s) with (timeouts s).
    destruct (timeouts s) as [|[seconds data] rest]; [reflexivity|].
    rewrite !value_of_bind. reflexivity.
  - rewrite value_of_bind.
    change (value_of (get sigint_handler) s) with (sigint_handler s).
    change (state_after (get sigint_handler) s) with s.
    destruct (sigint_handler s); [rewrite value_of_bind|]; reflexivity.
  - rewrite !value_of_bind. reflexivity.
  - rewrite !value_of_bind. reflexivity.
  - rewrite !value_of_bind. reflexivity.
  - rewrite !value_of_bind. reflexivity.
Qed.

Lemma timeout_quits_loop (s : state) (seconds : Z) (l : nat) (rest : list (Z * ptr)) :
  timeouts s = (seconds, Ptr l) :: rest ->
  is_running (state_after (dispatch TimeoutElapsed) s) = false.
Proof.
  intros Hsrc. destruct_state s. cbn in Hsrc. subst.
  destruct_ptrs; vm_compute; reflexivity.
Qed.

Lemma interrupt_quits_loop (s : state) (l : nat) :
  sigint_handler s = true ->
  Session.loop (globals s) = Ptr l ->
  is_running (state_after (dispatch Interrupt) s) = false.
Proof.
  intros Hsig Hloop. destruct_state s. cbn in Hsig, Hloop. subst.
  destruct_ptrs; vm_compute; reflexivity.
Qed.

Lemma dispatch_timeout_calls (s : state) (seconds : Z) (data : ptr) (rest : list (Z * ptr)) :
  timeouts s = (seconds, data) :: rest ->
  calls_of (dispatch TimeoutElapsed) s = specified_shutdown_order (globals s) data.
Proof.
  intros Hsrc. destruct_state s. cbn in Hsrc. subst.
  destruct_ptrs; vm_compute; reflexivity.
Qed.

Lemma dispatch_interrupt_calls (s : state) :
  sigint_handler s = true ->
  calls_of (dispatch Interrupt) s =
  Call "log_error" [AStr TAG; AStr "received SIGINT"] AVoid
  :: specified_shutdown_order (globals s) (Session.loop (globals s)).
Proof.
  intros Hsig. destruct_state s. cbn in Hsig. subst.
  destruct_ptrs; vm_compute; reflexivity.
Qed.

(** ** The loop and the run of [main] *)

Lemma iterate_stopped (events : list loop_event) (s : state) :
  is_running s = false -> value_of (iterate events) s = true.
Proof.
  intros Hstop. destruct events; unfold value_of; cbn; rewrite Hstop; reflexivity.
Qed.

Lemma iterate_stopped_calls (events : list loop_event) (s : state) :
  is_running s = false -> calls_of (iterate events) s = [].
Proof.
  intros Hstop. destruct events; unfold calls_of; cbn; rewrite Hstop; reflexivity.
Qed.

Lemma iterate_nil_running (s : state) :
  is_running s = true -> value_of (iterate []) s = false.
Proof. intros Hrun. unfold value_of. cbn. rewrite Hrun. reflexivity. Qed.

Lemma iterate_nil_calls (s : state) : calls_of (iterate []) s = [].
Proof. unfold calls_of. cbn. destruct (negb (is_running s)); reflexivity. Qed.

(** A turn the process survives. *)
Lemma iterate_cons (e : loop_event) (events : list loop_event) (s : state) :
  is_running s = true ->
  survives e s = true ->
  calls_of (iterate (e :: events)) s =
    calls_of (dispatch e) s ++ calls_of (iterate events) (state_after (dispatch e) s)
  /\ value_of (iterate (e :: events)) s =
     value_of (iterate events) (state_after (dispatch e) s)
  /\ state_after (iterate (e :: events)) s =
     state_after (iterate events) (state_after (dispatch e) s).
Proof.
  intros Hrun Halive. cbn [iterate].
  rewrite calls_of_bind, value_of_bind, state_after_bind.
  change (value_of (get is_running) s) with (is_running s).
  change (state_after (get is_running) s) with s.
  change (calls_of (get is_running) s) with (@nil event).
  rewrite Hrun. cbn [negb List.app].
  rewrite calls_of_bind, value_of_bind, state_after_bind.
  rewrite dispatch_survives, Halive. auto.
Qed.

(** A turn that terminates the process. *)
Lemma iterate_killed (e : loop_event) (events : list loop_event) (s : state) :
  is_running s = true ->
  survives e s = false ->
  value_of (iterate (e :: events)) s = false.
Proof.
  intros Hrun Hdead. cbn [iterate].
  rewrite value_of_bind.
  change (value_of (get is_running) s) with (is_running s).
  change (state_after (get is_running) s) with s.
  rewrite Hrun. cbn [negb].
  rewrite value_of_bind, dispatch_survives, Hdead. reflexivity.
Qed.

Lemma survives_serving (e : loop_event) (s : state) :
  is_shutdown_trigger e = false -> survives e s = true.
Proof. destruct e; intros He; try discriminate He; reflexivity. Qed.

(** While no timeout and no interrupt arrive the loop keeps waiting and the
    session stays as it is. *)
Lemma iterate_serving_state (events : list loop_event) :
  forall s : state,
    forallb (fun e => negb (is_shutdown_trigger e)) events = true ->
    is_running s = true ->
    value_of (iterate events) s = false
    /\ session_of (state_after (iterate events) s) = session_of s.
Proof.
  induction events as [|e events IH]; intros s Hev Hrun.
  - split.
    + apply iterate_nil_running, Hrun.
    + unfold state_after. cbn. rewrite Hrun. reflexivity.
  - cbn [forallb] in Hev. apply andb_prop in Hev as [He Hev].
    apply negb_true_iff in He.
    destruct (iterate_cons e events s Hrun (survives_serving e s He)) as (_ & Hval & Hst).
    pose proof (serving_keeps_session e He s) as Hkeep.
    destruct (session_of_running _ _ Hkeep) as [Hrun' _].
    rewrite Hrun in Hrun'.
    destruct (IH (state_after (dispatch e) s) Hev Hrun') as (IHv & IHs).
    rewrite Hval, Hst. split; [exact IHv | rewrite IHs; exact Hkeep].
Qed.

(** Events after a first stretch without timeout and interrupt. *)
Lemma iterate_app_serving (before after : list loop_event) :
  forall s : state,
    forallb (fun e => negb (is_shutdown_trigger e)) before = true ->
    is_running s = true ->
    calls_of (iterate (before ++ after)) s =
      calls_of (iterate before) s
      ++ calls_of (iterate after) (state_after (iterate before) s)
    /\ value_of (iterate (before ++ after)) s =
       value_of (iterate after) (state_after (iterate before) s).
Proof.
  induction before as [|e before IH]; intros s Hev Hrun.
  - cbn [List.app]. rewrite iterate_nil_calls.
    assert (Hst : state_after (iterate []) s = s)
      by (unfold state_after; cbn; rewrite Hrun; reflexivity).
    rewrite Hst. auto.
  - cbn [forallb] in Hev. apply andb_prop in Hev as [He Hev].
    apply negb_true_iff in He.
    pose proof (survives_serving e s He) as Halive.
    destruct (iterate_cons e before s Hrun Halive) as (Hc1 & _ & Hs1).
    cbn [List.app].
    destruct (iterate_cons e (before ++ after) s Hrun Halive) as (Hc2 & Hv2 & _).
    pose proof (serving_keeps_session e He s) as Hkeep.
    destruct (session_of_running _ _ Hkeep) as [Hrun' _].
    rewrite Hrun in Hrun'.
    destruct (IH (state_after (dispatch e) s) Hev Hrun') as (IHc & IHv).
    rewrite Hc2, Hv2, Hc1, Hs1, IHc, IHv, app_assoc. auto.
Qed.

(** The timeout quits the loop unless an interrupt found no handler
    before. *)
Lemma iterate_until_timeout (events : list loop_event) :
  forall (s : state) (seconds : Z) (l : nat) (rest : list (Z * ptr)),
    timeouts s = (seconds, Ptr l) :: rest ->
    sigint_handler s = true \/ ~ In Interrupt events ->
    In TimeoutElapsed events ->
    value_of (iterate events) s = true.
Proof.
  induction events as [|e events IH]; intros s seconds l rest Hsrc Hsig Hin.
  - destruct Hin.
  - destruct (is_running s) eqn:Hrun; [| apply iterate_stopped, Hrun].
    assert (Halive : survives e s = true).
    { destruct e; try reflexivity. cbn.
      destruct Hsig as [Hsig|Hno]; [exact Hsig | exfalso; apply Hno; left; reflexivity]. }
    destruct (iterate_cons e events s Hrun Halive) as (_ & -> & _).
    destruct (decide (e = TimeoutElapsed)) as [->|He].
    + apply iterate_stopped. eapply timeout_quits_loop, Hsrc.
    + destruct Hin as [Heq|Hin]; [congruence|].
      eapply IH; [| | exact Hin].
      * rewrite (dispatch_keeps_timeouts e He). exact Hsrc.
      * rewrite (dispatch_keeps_handler e).
        destruct Hsig as [Hsig|Hno]; [left; exact Hsig | right].
        intros Hint. apply Hno. right. exact Hint.
Qed.

(** Either shutdown event quits the loop when the handler is installed. *)
Lemma iterate_until_shutdown (events : list loop_event) :
  forall (s : state) (seconds : Z) (l l' : nat) (rest : list (Z * ptr)),
    timeouts s = (seconds, Ptr l) :: rest ->
    sigint_handler s = true ->
    Session.loop (globals s) = Ptr l' ->
    existsb is_shutdown_trigger events = true ->
    value_of (iterate events) s = true.
Proof.
  induction events as [|e events IH]; intros s seconds l l' rest Hsrc Hsig Hloop Hex.
  - discriminate Hex.
  - destruct (is_running s) eqn:Hrun; [| apply iterate_stopped, Hrun].
    assert (Halive : survives e s = true) by (destruct e; try reflexivity; exact Hsig).
    destruct (iterate_cons e events s Hrun Halive) as (_ & -> & _).
    destruct (is_shutdown_trigger e) eqn:He.
    + apply iterate_stopped.
      destruct e; try discriminate He.
      * eapply timeout_quits_loop, Hsrc.
      * eapply interrupt_quits_loop; eassumption.
    + cbn [existsb] in Hex. rewrite He in Hex. cbn [orb] in Hex.
      pose proof (serving_keeps_session e He s) as Hkeep.
      unfold session_of in Hkeep. injection Hkeep as Hg Ht _ Hs _ _.
      eapply IH; [| | | exact Hex].
      * rewrite Ht. exact Hsrc.
      * rewrite Hs. exact Hsig.
      * rewrite Hg. exact Hloop.
Qed.

Lemma main_calls (events : list loop_event) (s : state) :
  calls_of (main events) s =
  calls_of main_startup s
  ++ calls_of (main_serve events (value_of main_startup s)) (state_after main_startup s).
Proof. unfold main. apply calls_of_bind. Qed.

Lemma main_serve_calls (events : list loop_event) (dbusConnection : ptr) (s : state) :
  calls_of (main_serve events dbusConnection) s =
  Call "g_main_loop_run" [APtr (Session.loop (globals s))] AVoid
  :: calls_of (iterate events) (with_is_running true s)
  ++ (if value_of (iterate events) (with_is_running true s)
      then main_exit_calls (Session.loop (globals s)) dbusConnection
      else []).
Proof.
  unfold main_serve, g_main_loop_run.
  rewrite !calls_of_bind, !value_of_bind, !state_after_bind.
  cbn [global get call modify calls_of value_of state_after fst snd List.app].
  fold (value_of (iterate events) (with_is_running true s)).
  fold (calls_of (iterate events) (with_is_running true s)).
  destruct (value_of (iterate events) (with_is_running true s)); reflexivity.
Qed.

Lemma main_serve_value (events : list loop_event) (dbusConnection : ptr) (s : state) :
  value_of (main_serve events dbusConnection) s =
  if value_of (iterate events) (with_is_running true s) then Some 0 else None.
Proof.
  unfold main_serve, g_main_loop_run.
  rewrite !value_of_bind, !state_after_bind.
  cbn [global get call modify calls_of value_of state_after fst snd].
  fold (value_of (iterate events) (with_is_running true s)).
  destruct (value_of (iterate events) (with_is_running true s)); reflexivity.
Qed.

Lemma main_value (events : list loop_event) (s : state) :
  value_of (main events) s =
  if value_of (iterate events) (with_is_running true (state_after main_startup s))
  then Some 0 else None.
Proof. unfold main. rewrite value_of_bind. apply main_serve_value. Qed.

(** ** The advertising policy *)

(** C1.  A central-state-changed event makes the callback issue exactly one
    [stop_advertising] call (and no [start]) for the session's
    advertisement when the device is connected, exactly one
    [start_advertising] call (and no [stop]) when it is disconnected, and
    no advertising call in the two transitional states. *)
Theorem on_central_state_changed_advertising :
  forall (adapter : ptr) (device : Device) (s : state),
    advertising_calls (calls_of (on_central_state_changed adapter device) s) =
    match binc_device_get_connection_state device with
    | BINC_CONNECTED =>
        [stop_advertising_call adapter (Session.advertisement (globals s))]
    | BINC_DISCONNECTED =>
        [start_advertising_call adapter (Session.advertisement (globals s))]
    | BINC_CONNECTING | BINC_DISCONNECTING => []
    end.
Proof.
  intros adapter [address name st bonded] s.
  destruct_state s.
  destruct st; vm_compute; reflexivity.
Qed.

(** ** The shutdown sequence *)

Lemma callback_calls (data : ptr) (s : state) :
  calls_of (callback data) s = specified_shutdown_order (globals s) data.
Proof.
  destruct_state s.
  destruct_ptrs; vm_compute; reflexivity.
Qed.

Lemma main_startup_timeouts (e : environment) (input : string) :
  timeouts (started e input) = [(600, Session.loop (globals (started e input)))].
Proof. destruct e as [[] [] [] []]; vm_compute; reflexivity. Qed.

Lemma main_startup_loop (e : environment) (input : string) :
  exists l : nat, Session.loop (globals (started e input)) = Ptr l.
Proof. destruct e as [[] [] [] []]; eexists; vm_compute; reflexivity. Qed.

Lemma main_startup_sigint_handler (e : environment) (input : string) :
  sigint_handler (started e input) = signal_installable e.
Proof. destruct e as [[] [] [] []]; vm_compute; reflexivity. Qed.

(** The state in which the loop takes the first event after [before]. *)
Lemma serving_state (e : environment) (input : string) (before : list loop_event) :
  forallb (fun ev => negb (is_shutdown_trigger ev)) before = true ->
  let s1 := state_after (iterate before) (with_is_running true (started e input)) in
  is_running s1 = true
  /\ globals s1 = globals (started e input)
  /\ timeouts s1 = timeouts (started e input)
  /\ sigint_handler s1 = sigint_handler (started e input).
Proof.
  intros Hev s1. subst s1.
  destruct (iterate_serving_state before (with_is_running true (started e input))
              Hev eq_refl) as (_ & Hkeep).
  unfold session_of in Hkeep. injection Hkeep as Hg Ht Hr Hs _ _.
  auto.
Qed.

(** A run in which a shutdown event that the process survives, and that
    quits the loop, follows a stretch of other events: [main] returns, and
    its calls are those of the run up to that event, then the calls of the
    event, then the exit of [main]. *)
Lemma main_until_shutdown
    (e : environment) (input : string) (before after : list loop_event)
    (trigger : loop_event) :
  forallb (fun ev => negb (is_shutdown_trigger ev)) before = true ->
  let s1 := state_after (iterate before) (with_is_running true (started e input)) in
  survives trigger s1 = true ->
  is_running (state_after (dispatch trigger) s1) = false ->
  value_of (main (before ++ trigger :: after)) (initial_state e input) = Some 0
  /\ calls_of (main (before ++ trigger :: after)) (initial_state e input) =
     calls_of (main before) (initial_state e input)
     ++ calls_of (dispatch trigger) s1
     ++ main_exit_calls (Session.loop (globals (started e input)))
          (value_of main_startup (initial_state e input)).
Proof.
  intros Hev s1 Halive Hquit.
  destruct (serving_state e input before Hev) as (Hrun & _).
  fold s1 in Hrun.
  destruct (iterate_app_serving before (trigger :: after)
              (with_is_running true (started e input)) Hev eq_refl) as (Hcalls & Hval).
  fold s1 in Hcalls, Hval.
  destruct (iterate_cons trigger after s1 Hrun Halive) as (Hc & Hv & _).
  rewrite (iterate_stopped_calls after _ Hquit), app_nil_r in Hc.
  rewrite (iterate_stopped after _ Hquit) in Hv.
  rewrite Hc in Hcalls. rewrite Hv in Hval.
  destruct (iterate_serving_state before (with_is_running true (started e input))
              Hev eq_refl) as (Hwait & _).
  split.
  - rewrite main_value. fold (started e input). rewrite Hval. reflexivity.
  - rewrite !main_calls, !main_serve_calls. fold (started e input).
    rewrite Hval, Hwait, Hcalls, app_nil_r.
    cbn [List.app]. rewrite <- !app_assoc. reflexivity.
Qed.

Lemma main_until_timeout
    (e : environment) (input : string) (before after : list loop_event) :
  forallb (fun ev => negb (is_shutdown_trigger ev)) before = true ->
  value_of (main (before ++ TimeoutElapsed :: after)) (initial_state e input) = Some 0
  /\ calls_of (main (before ++ TimeoutElapsed :: after)) (initial_state e input) =
     calls_of (main before) (initial_state e input)
     ++ specified_shutdown_order (globals (started e input))
          (Session.loop (globals (started e input)))
     ++ main_exit_calls (Session.loop (globals (started e input)))
          (value_of main_startup (initial_state e input)).
Proof.
  intros Hev.
  destruct (serving_state e input before Hev) as (_ & Hg & Ht & _).
  rewrite main_startup_timeouts in Ht.
  destruct (main_startup_loop e input) as [l Hl].
  assert (Hquit : is_running
                    (state_after (dispatch TimeoutElapsed)
                       (state_after (iterate before)
                          (with_is_running true (started e input)))) = false).
  { eapply timeout_quits_loop. rewrite Ht, Hl. reflexivity. }
  destruct (main_until_shutdown e input before after TimeoutElapsed Hev eq_refl Hquit)
    as (Hv & Hc).
  split; [exact Hv |].
  rewrite Hc, (dispatch_timeout_calls _ _ _ _ Ht), Hg. reflexivity.
Qed.

Lemma main_returns_after_timeout (e : environment) (input : string) (events : list loop_event) :
  signal_installable e = true \/ ~ In Interrupt events ->
  In TimeoutElapsed events ->
  value_of (main events) (initial_state e input) = Some 0.
Proof.
  intros Hsig Hin. rewrite main_value. fold (started e input).
  destruct (main_startup_loop e input) as [l Hl].
  erewrite iterate_until_timeout; [reflexivity | | | exact Hin].
  - change (timeouts (with_is_running true (started e input)))
      with (timeouts (started e input)).
    rewrite main_startup_timeouts, Hl. reflexivity.
  - change (sigint_handler (with_is_running true (started e input)))
      with (sigint_handler (started e input)).
    rewrite main_startup_sigint_handler. exact Hsig.
Qed.

(** C2.  The session has a bounded lifetime and an ordered shutdown.
    [main] configures one timeout, of 600 seconds, on the loop.  In a run
    in which that timeout elapses after any number of power, connection
    and pairing events, [main] returns, and the calls of the program are
    those of the run up to the timeout, then the shutdown sequence in the
    specified order (agent; application: unregister, free; advertisement:
    stop, free; adapter; loop) on the objects of the session, then the
    exit of [main]; after a startup that found an adapter all seven steps
    are taken.  More generally [main] returns once the timeout has elapsed,
    unless an interrupt that found no handler has terminated the process
    before; and whenever GLib calls a timeout source, the calls issued are
    the specified order. *)
Theorem timeout_runs_shutdown_in_order :
  (forall (e : environment) (input : string),
     timeouts (started e input) = [(600, Session.loop (globals (started e input)))])
  /\
  (forall (e : environment) (input : string) (before after : list loop_event),
     forallb (fun ev => negb (is_shutdown_trigger ev)) before = true ->
     value_of (main (before ++ TimeoutElapsed :: after)) (initial_state e input) = Some 0
     /\ calls_of (main (before ++ TimeoutElapsed :: after)) (initial_state e input) =
        calls_of (main before) (initial_state e input)
        ++ specified_shutdown_order (globals (started e input))
             (Session.loop (globals (started e input)))
        ++ main_exit_calls (Session.loop (globals (started e input)))
             (value_of main_startup (initial_state e input)))
  /\
  (forall (e : environment) (input : string) (events : list loop_event),
     signal_installable e = true \/ ~ In Interrupt events ->
     In TimeoutElapsed events ->
     value_of (main events) (initial_state e input) = Some 0)
  /\
  (forall (s : state) (seconds : Z) (data : ptr) (rest : list (Z * ptr)),
     timeouts s = (seconds, data) :: rest ->
     calls_of (dispatch TimeoutElapsed) s = specified_shutdown_order (globals s) data)
  /\
  (forall (powered : bool) (input : string),
     exists agent app advertisement adapter loop : nat,
       specified_shutdown_order (globals (started (env_with_adapter powered) input))
         (Session.loop (globals (started (env_with_adapter powered) input))) =
       [Call "binc_agent_free" [APtr (Ptr agent)] AVoid;
        Call "binc_adapter_unregister_application" [APtr (Ptr adapter); APtr (Ptr app)] AVoid;
        Call "binc_application_free" [APtr (Ptr app)] AVoid;
        Call "binc_adapter_stop_advertising" [APtr (Ptr adapter); APtr (Ptr advertisement)] AVoid;
        Call "binc_advertisement_free" [APtr (Ptr advertisement)] AVoid;
        Call "binc_adapter_free" [APtr (Ptr adapter)] AVoid;
        Call "g_main_loop_quit" [APtr (Ptr loop)] AVoid]).
Proof.
  split; [exact main_startup_timeouts |].
  split; [exact main_until_timeout |].
  split; [exact main_returns_after_timeout |].
  split; [exact dispatch_timeout_calls |].
  intros powered input. do 5 eexists.
  destruct powered; vm_compute; reflexivity.
Qed.

Lemma timeout_runs_shutdown_in_order_witness :
  (value_of (main ([CentralStateChanged central_1] ++ TimeoutElapsed :: [Interrupt]))
            (initial_state (env_with_adapter true) "") = Some 0
   /\ calls_of (main ([CentralStateChanged central_1] ++ TimeoutElapsed :: [Interrupt]))
              (initial_state (env_with_adapter true) "") =
      calls_of (main [CentralStateChanged central_1])
        (initial_state (env_with_adapter true) "")
      ++ specified_shutdown_order (globals (started (env_with_adapter true) ""))
           (Session.loop (globals (started (env_with_adapter true) "")))
      ++ main_exit_calls (Session.loop (globals (started (env_with_adapter true) "")))
           (value_of main_startup (initial_state (env_with_adapter true) "")))
  /\
  value_of (main [Interrupt; TimeoutElapsed])
           (initial_state (env_with_adapter true) "") = Some 0
  /\
  calls_of (dispatch TimeoutElapsed) (started (env_with_adapter true) "") =
  specified_shutdown_order (globals (started (env_with_adapter true) "")) (Ptr 2).
Proof.
  split; [| split].
  - apply (proj1 (proj2 timeout_runs_shutdown_in_order)
             (env_with_adapter true) "" [CentralStateChanged central_1] [Interrupt]).
    reflexivity.
  - apply (proj1 (proj2 (proj2 timeout_runs_shutdown_in_order))
             (env_with_adapter true) "" [Interrupt; TimeoutElapsed]).
    + left. reflexivity.
    + cbn; tauto.
  - apply (proj1 (proj2 (proj2 (proj2 timeout_runs_shutdown_in_order)))
             (started (env_with_adapter true) "") 600 (Ptr 2) []).
    vm_compute; reflexivity.
Defined.

(** C3.  A second run of the shutdown sequence is not a no-op.  [callback]
    resets [agent], [app] and [default_adapter] to [NULL] but leaves
    [advertisement] pointing at the object it has just freed, so the second
    run calls [binc_adapter_stop_advertising] with a [NULL] adapter on the
    freed advertisement and frees it again.  In a session that was started
    with an adapter the advertisement is freed twice. *)
Theorem second_shutdown_frees_advertisement_again :
  (forall (s : state) (data : ptr),
     let adv := Session.advertisement (globals s) in
     calls_of (callback data) (state_after (callback data) s) =
     if_set adv [stop_advertising_call NULL adv;
                 Call "binc_advertisement_free" [APtr adv] AVoid]
     ++ [Call "g_main_loop_quit" [APtr data] AVoid])
  /\
  (let s := started (env_with_adapter true) "" in
   Session.advertisement (globals s) = Ptr 6 /\
   calls_of (callback (Ptr 2)) (state_after (callback (Ptr 2)) s) =
     [stop_advertising_call NULL (Ptr 6);
      Call "binc_advertisement_free" [APtr (Ptr 6)] AVoid;
      Call "g_main_loop_quit" [APtr (Ptr 2)] AVoid] /\
   occurrences (Call "binc_advertisement_free" [APtr (Ptr 6)] AVoid)
     (calls_of (callback (Ptr 2) ;; callback (Ptr 2)) s) = 2%nat).
Proof.
  split.
  - intros s data. destruct_state s. destruct_ptrs; vm_compute; reflexivity.
  - vm_compute. auto.
Qed.

(** C4.  With [cleanup_handler] installed and the timeout configured on the
    loop, as [main] leaves them, an interrupt and the timeout run the same
    shutdown: the interrupt logs one line and then issues exactly the calls
    the timeout issues, and both leave the same globals and the same loop
    flag. *)
Theorem sigint_shutdown_is_timeout_shutdown :
  forall (s : state) (seconds : Z) (rest : list (Z * ptr)),
    sigint_handler s = true ->
    timeouts s = (seconds, Session.loop (globals s)) :: rest ->
    calls_of (dispatch Interrupt) s =
      Call "log_error" [AStr TAG; AStr "received SIGINT"] AVoid
      :: calls_of (dispatch TimeoutElapsed) s
    /\ calls_of (dispatch TimeoutElapsed) s =
       specified_shutdown_order (globals s) (Session.loop (globals s))
    /\ globals (state_after (dispatch Interrupt) s) =
       globals (state_after (dispatch TimeoutElapsed) s)
    /\ is_running (state_after (dispatch Interrupt) s) =
       is_running (state_after (dispatch TimeoutElapsed) s).
Proof.
  intros s seconds rest Hsig Hsrc.
  destruct_state s. cbn in Hsig, Hsrc. subst.
  destruct_ptrs; vm_compute; auto.
Qed.

Lemma sigint_shutdown_is_timeout_shutdown_witness :
  let s := started (env_with_adapter true) "" in
  calls_of (dispatch Interrupt) s =
    Call "log_error" [AStr TAG; AStr "received SIGINT"] AVoid
    :: calls_of (dispatch TimeoutElapsed) s
  /\ calls_of (dispatch TimeoutElapsed) s =
     specified_shutdown_order (globals s) (Session.loop (globals s))
  /\ globals (state_after (dispatch Interrupt) s) =
     globals (state_after (dispatch TimeoutElapsed) s)
  /\ is_running (state_after (dispatch Interrupt) s) =
     is_running (state_after (dispatch TimeoutElapsed) s).
Proof.
  apply (sigint_shutdown_is_timeout_shutdown
           (started (env_with_adapter true) "") 600 []).
  - vm_compute; reflexivity.
  - vm_compute; reflexivity.
Defined.

(** ** Startup *)

Lemma main_serve_enters_loop events (dbusConnection : ptr) (s : state) :
  In (Call "g_main_loop_run" [APtr (Session.loop (globals s))] AVoid)
     (calls_of (main_serve events dbusConnection) s).
Proof.
  unfold main_serve, g_main_loop_run.
  rewrite !calls_of_bind. cbn. left. reflexivity.
Qed.

Lemma registrations_guarded_never track (ok : bool) (t : list event) :
  Forall (fun e => callee e <> "binc_adapter_register_application") t ->
  registrations_guarded track ok t = true.
Proof.
  intros Ht. revert ok.
  induction Ht as [|e t He _ IH]; intros ok; [reflexivity|].
  cbn [registrations_guarded]. unfold is_call.
  apply String.eqb_neq in He. rewrite He. cbn. apply IH.
Qed.

Lemma registrations_guarded_app track (ok : bool) (t1 t2 : list event) :
  Forall (fun e => callee e <> "binc_adapter_register_application") t2 ->
  registrations_guarded track ok (t1 ++ t2) = registrations_guarded track ok t1.
Proof.
  intros Ht2. revert ok.
  induction t1 as [|e t1 IH]; intros ok; cbn [List.app registrations_guarded].
  - apply registrations_guarded_never, Ht2.
  - rewrite IH. reflexivity.
Qed.

(** C5, as stated, fails: on an adapter that reports powered=false, [main]
    requests power-on and registers the application in the same turn,
    before any report of powered=true. *)
Lemma registration_before_powered_report :
  registrations_guarded powered_reported false
    (calls_of (main []) (initial_state (env_with_adapter false) "")) = false.
Proof. vm_compute; reflexivity. Qed.

(** C5, amended.  In every run, whatever the loop delivers, the application
    is registered only after the adapter reported powered=true or power-on
    was requested; it is registered once when an adapter was found and
    never otherwise.  The program does not wait for the power callback. *)
Theorem registration_after_power_requested :
  forall (e : environment) (input : string) (events : list loop_event),
    let t := calls_of (main events) (initial_state e input) in
    registrations_guarded powered_or_requested false t = true
    /\ length (calls_to "binc_adapter_register_application" t) =
       (if adapter_present e then 1%nat else 0%nat).
Proof.
  intros e input events t. subst t.
  pose proof (main_serve_never_calls "binc_adapter_register_application" events
                (value_of main_startup (initial_state e input))
                ltac:(left; reflexivity)
                (state_after main_startup (initial_state e input))) as Hserve.
  rewrite main_calls. split.
  - rewrite registrations_guarded_app by exact Hserve.
    destruct e as [[] [] [] []]; vm_compute; reflexivity.
  - unfold calls_to. rewrite List.filter_app, length_app.
    fold (calls_to "binc_adapter_register_application"
            (calls_of (main_serve events (value_of main_startup (initial_state e input)))
               (state_after main_startup (initial_state e input)))).
    rewrite (calls_to_never _ _ Hserve).
    destruct e as [[] [] [] []]; vm_compute; reflexivity.
Qed.

(** C7, as stated, fails: without an adapter the program logs and goes on
    to run its event loop, where it waits. *)
Lemma no_adapter_session_not_aborted :
  let r := run_main env_without_adapter "" [] in
  ~ session_aborted (snd r) /\ fst (fst r) = None.
Proof. vm_compute. split; [discriminate | reflexivity]. Qed.

Lemma main_startup_without_adapter (e : environment) (input : string) :
  adapter_present e = false ->
  globals (started e input) =
  Session.mk (Session.loop (globals (started e input))) NULL NULL NULL NULL.
Proof.
  intros Hno. destruct e as [[] [] [] []]; try discriminate Hno; vm_compute; reflexivity.
Qed.

Lemma main_until_interrupt
    (e : environment) (input : string) (before after : list loop_event) :
  signal_installable e = true ->
  forallb (fun ev => negb (is_shutdown_trigger ev)) before = true ->
  value_of (main (before ++ Interrupt :: after)) (initial_state e input) = Some 0
  /\ calls_of (main (before ++ Interrupt :: after)) (initial_state e input) =
     calls_of (main before) (initial_state e input)
     ++ (Call "log_error" [AStr TAG; AStr "received SIGINT"] AVoid
         :: specified_shutdown_order (globals (started e input))
              (Session.loop (globals (started e input))))
     ++ main_exit_calls (Session.loop (globals (started e input)))
          (value_of main_startup (initial_state e input)).
Proof.
  intros Hsig Hev.
  destruct (serving_state e input before Hev) as (_ & Hg & _ & Hs).
  rewrite main_startup_sigint_handler, Hsig in Hs.
  destruct (main_startup_loop e input) as [l Hl].
  assert (Hquit : is_running
                    (state_after (dispatch Interrupt)
                       (state_after (iterate before)
                          (with_is_running true (started e input)))) = false).
  { eapply interrupt_quits_loop; [exact Hs | rewrite Hg; exact Hl]. }
  destruct (main_until_shutdown e input before after Interrupt Hev Hs Hquit)
    as (Hv & Hc).
  split; [exact Hv |].
  rewrite Hc, (dispatch_interrupt_calls _ Hs), Hg. reflexivity.
Qed.

Lemma main_waits (e : environment) (input : string) (events : list loop_event) :
  forallb (fun ev => negb (is_shutdown_trigger ev)) events = true ->
  value_of (main events) (initial_state e input) = None.
Proof.
  intros Hev. rewrite main_value. fold (started e input).
  destruct (iterate_serving_state events (with_is_running true (started e input))
              Hev eq_refl) as (-> & _).
  reflexivity.
Qed.

(** C7, amended.  When no adapter is found the program logs the diagnostic
    and creates no agent, advertisement or application, in startup or
    later; it does not abort: it arms the 600 second timeout and enters the
    event loop.  There it waits: with no event delivered, or only power,
    connection and pairing events, [main] has not returned.  The timeout,
    or SIGINT when its handler is installed, ends the wait by running the
    shutdown sequence, which here only quits the loop, and [main] returns
    through its exit calls. *)
Theorem no_adapter_logs_and_waits :
  forall (e : environment) (input : string),
    adapter_present e = false ->
    let s0 := initial_state e input in
    let loop := Session.loop (globals (started e input)) in
    let quit := Call "g_main_loop_quit" [APtr loop] AVoid in
    let leave := main_exit_calls loop (value_of main_startup s0) in
    (forall events : list loop_event,
       let t := calls_of (main events) s0 in
       In no_adapter_diagnostic t
       /\ calls_to "binc_agent_create" t = []
       /\ calls_to "binc_advertisement_create" t = []
       /\ calls_to "binc_create_application" t = []
       /\ In (Call "g_timeout_add_seconds" [AInt 600; AFun "callback"; APtr loop] AVoid) t
       /\ In (Call "g_main_loop_run" [APtr loop] AVoid) t)
    /\ value_of (main []) s0 = None
    /\ (forall events : list loop_event,
         forallb (fun ev => negb (is_shutdown_trigger ev)) events = true ->
         value_of (main events) s0 = None)
    /\ (forall before after : list loop_event,
         forallb (fun ev => negb (is_shutdown_trigger ev)) before = true ->
         value_of (main (before ++ TimeoutElapsed :: after)) s0 = Some 0
         /\ calls_of (main (before ++ TimeoutElapsed :: after)) s0 =
            calls_of (main before) s0 ++ [quit] ++ leave)
    /\ (forall before after : list loop_event,
         signal_installable e = true ->
         forallb (fun ev => negb (is_shutdown_trigger ev)) before = true ->
         value_of (main (before ++ Interrupt :: after)) s0 = Some 0
         /\ calls_of (main (before ++ Interrupt :: after)) s0 =
            calls_of (main before) s0
            ++ [Call "log_error" [AStr TAG; AStr "received SIGINT"] AVoid; quit]
            ++ leave).
Proof.
  intros e input Hno s0 loop quit leave. subst s0 loop quit leave.
  assert (Hcreate : forall events f, In f startup_only ->
            calls_to f (calls_of (main events) (initial_state e input)) = []).
  { intros events f Hf. rewrite main_calls. unfold calls_to. rewrite List.filter_app.
    fold (calls_to f
            (calls_of (main_serve events (value_of main_startup (initial_state e input)))
               (state_after main_startup (initial_state e input)))).
    rewrite (calls_to_never f) by apply main_serve_never_calls, Hf.
    rewrite app_nil_r.
    destruct e as [[] [] [] []]; try discriminate Hno;
      cbn in Hf; destruct Hf as [<-|[<-|[<-|[<-|[]]]]]; vm_compute; reflexivity. }
  assert (Hshutdown :
            specified_shutdown_order (globals (started e input))
              (Session.loop (globals (started e input)))
            = [Call "g_main_loop_quit"
                 [APtr (Session.loop (globals (started e input)))] AVoid]).
  { rewrite (main_startup_without_adapter e input Hno) at 1. reflexivity. }
  split; [| split; [| split; [| split]]].
  - intros events. cbv zeta. repeat split.
    + rewrite main_calls. apply in_or_app. left.
      destruct e as [[] [] [] []]; try discriminate Hno; vm_compute; tauto.
    + apply Hcreate. cbn; tauto.
    + apply Hcreate. cbn; tauto.
    + apply Hcreate. cbn; tauto.
    + rewrite main_calls. apply in_or_app. left.
      destruct e as [[] [] [] []]; try discriminate Hno; vm_compute; tauto.
    + rewrite main_calls. apply in_or_app. right. apply main_serve_enters_loop.
  - apply main_waits. reflexivity.
  - intros events Hev. apply main_waits, Hev.
  - intros before after Hev.
    destruct (main_until_timeout e input before after Hev) as (Hv & Hc).
    rewrite Hshutdown in Hc. split; [exact Hv | exact Hc].
  - intros before after Hsig Hev.
    destruct (main_until_interrupt e input before after Hsig Hev) as (Hv & Hc).
    rewrite Hshutdown in Hc. split; [exact Hv | exact Hc].
Qed.

Lemma no_adapter_logs_and_waits_witness :
  let s0 := initial_state env_without_adapter "" in
  (value_of (main [PoweredStateChanged true; CentralStateChanged central_1]) s0 = None)
  /\ (value_of (main ([PoweredStateChanged true] ++ TimeoutElapsed :: [])) s0 = Some 0
      /\ calls_of (main ([PoweredStateChanged true] ++ TimeoutElapsed :: [])) s0 =
         calls_of (main [PoweredStateChanged true]) s0
         ++ [Call "g_main_loop_quit" [APtr (Ptr 2)] AVoid]
         ++ main_exit_calls (Ptr 2) (Ptr 1))
  /\ (value_of (main ([] ++ Interrupt :: [TimeoutElapsed])) s0 = Some 0
      /\ calls_of (main ([] ++ Interrupt :: [TimeoutElapsed])) s0 =
         calls_of (main []) s0
         ++ [Call "log_error" [AStr TAG; AStr "received SIGINT"] AVoid;
             Call "g_main_loop_quit" [APtr (Ptr 2)] AVoid]
         ++ main_exit_calls (Ptr 2) (Ptr 1)).
Proof.
  pose proof (no_adapter_logs_and_waits env_without_adapter "" eq_refl)
    as (_ & _ & Hwait & Htimeout & Hinterrupt).
  split; [| split].
  - apply Hwait. reflexivity.
  - apply Htimeout. reflexivity.
  - apply Hinterrupt; reflexivity.
Defined.

(** ** The read callback *)

Lemma on_local_char_read_other
    (application : Application) (address service_uuid char_uuid : string)
    (mtu offset : Z) :
  (service_uuid, char_uuid) <> (HTS_SERVICE_UUID, TEMPERATURE_CHAR_UUID) ->
  on_local_char_read application address service_uuid char_uuid mtu offset
  = (Some BLUEZ_ERROR_REJECTED, application).
Proof.
  intros Hpair. unfold on_local_char_read, g_str_equal.
  destruct (String.eqb_spec service_uuid HTS_SERVICE_UUID) as [Hs|Hs];
    destruct (String.eqb_spec char_uuid TEMPERATURE_CHAR_UUID) as [Hc|Hc];
    cbn [andb]; congruence.
Qed.

(** C9.  A read of any pair other than the health-thermometer service with
    the temperature-measurement characteristic is rejected with
    [BLUEZ_ERROR_REJECTED] and the application is not touched; the callback
    accepts a read exactly for that pair. *)
Theorem read_rejected_unless_temperature :
  forall (application : Application) (address service_uuid char_uuid : string)
         (mtu offset : Z),
    ((service_uuid, char_uuid) <> (HTS_SERVICE_UUID, TEMPERATURE_CHAR_UUID) ->
     on_local_char_read application address service_uuid char_uuid mtu offset
     = (Some BLUEZ_ERROR_REJECTED, application))
    /\
    (fst (on_local_char_read application address service_uuid char_uuid mtu offset) = None
     <-> (service_uuid, char_uuid) = (HTS_SERVICE_UUID, TEMPERATURE_CHAR_UUID)).
Proof.
  intros application address service_uuid char_uuid mtu offset. split.
  - apply on_local_char_read_other.
  - unfold on_local_char_read, g_str_equal.
    destruct (String.eqb_spec service_uuid HTS_SERVICE_UUID) as [Hs|Hs];
      destruct (String.eqb_spec char_uuid TEMPERATURE_CHAR_UUID) as [Hc|Hc];
      cbn [andb fst]; split; intros H; congruence.
Qed.

Lemma read_rejected_unless_temperature_witness :
  on_local_char_read thermometer "AA:BB:CC:DD:EE:FF" HTS_SERVICE_UUID CUD_CHAR 23 0
  = (Some BLUEZ_ERROR_REJECTED, thermometer).
Proof.
  apply (proj1 (read_rejected_unless_temperature
                  thermometer "AA:BB:CC:DD:EE:FF" HTS_SERVICE_UUID CUD_CHAR 23 0)).
  discriminate.
Defined.

(** C6.  The read callback does not keep a value that was set.  Its comment
    says the callback is there to set the characteristic value "if it is
    not set", but it stores its thirteen bytes on every accepted read: once
    the temperature characteristic has been set to any value [v], a read
    yields the thirteen bytes and leaves them stored in place of [v].  So
    the round trip fails, for instance after setting the two bytes 01 02. *)
Theorem read_overwrites_set_value :
  (forall (tree : Application) (c : Characteristic) (v : list Byte.byte)
          (address : string) (mtu offset : Z),
     tree !! (HTS_SERVICE_UUID, TEMPERATURE_CHAR_UUID) = Some c ->
     let stored :=
       binc_application_set_char_value tree HTS_SERVICE_UUID TEMPERATURE_CHAR_UUID v in
     (c' ← stored !! (HTS_SERVICE_UUID, TEMPERATURE_CHAR_UUID); value c') = Some v
     /\ read_request stored address HTS_SERVICE_UUID TEMPERATURE_CHAR_UUID mtu offset
        = (ReadValue (Some temperature_bytes),
           binc_application_set_char_value tree
             HTS_SERVICE_UUID TEMPERATURE_CHAR_UUID temperature_bytes))
  /\
  ~ read_round_trip thermometer HTS_SERVICE_UUID TEMPERATURE_CHAR_UUID
      [Byte.x01; Byte.x02].
Proof.
  split.
  - intros tree c v address mtu offset Htree stored. subst stored.
    unfold read_request, on_local_char_read, g_str_equal.
    rewrite !String.eqb_refl. cbn [andb].
    unfold binc_application_set_char_value. rewrite Htree.
    rewrite !lookup_insert_eq. cbn [properties notifying value mbind option_bind].
    rewrite insert_insert_eq. auto.
  - intros Hrt. specialize (Hrt "AA:BB:CC:DD:EE:FF" 23 0).
    apply (f_equal fst) in Hrt. vm_compute in Hrt. discriminate Hrt.
Qed.

Lemma read_overwrites_set_value_witness :
  let stored :=
    binc_application_set_char_value thermometer
      HTS_SERVICE_UUID TEMPERATURE_CHAR_UUID [Byte.x01; Byte.x02] in
  (c' ← stored !! (HTS_SERVICE_UUID, TEMPERATURE_CHAR_UUID); value c')
  = Some [Byte.x01; Byte.x02]
  /\ read_request stored "AA:BB:CC:DD:EE:FF"
       HTS_SERVICE_UUID TEMPERATURE_CHAR_UUID 23 0
     = (ReadValue (Some temperature_bytes),
        binc_application_set_char_value thermometer
          HTS_SERVICE_UUID TEMPERATURE_CHAR_UUID temperature_bytes).
Proof.
  apply (proj1 read_overwrites_set_value thermometer
           (mkCharacteristic ["GATT_CHR_PROP_INDICATE"; "GATT_CHR_PROP_WRITE"] None false)
           [Byte.x01; Byte.x02] "AA:BB:CC:DD:EE:FF" 23 0).
  vm_compute; reflexivity.
Defined.

(** ** The agent callbacks *)

(** C10.  The authorization callback allows every device: it logs the
    request and returns [TRUE], whatever the device's address, name,
    connection state or bonding state, and changes nothing. *)
Theorem on_request_authorization_allows :
  forall (device : Device) (s : state),
    on_request_authorization device s =
    (true, s,
     [Call "log_debug"
        [AStr TAG; AStr "requesting authorization for '%s";
         AOptStr (binc_device_get_name device)] AVoid]).
Proof. intros device s. reflexivity. Qed.

(** C8, as stated, fails: the callback returns the number typed, whatever
    its size, and a failure to read is not told apart from the code
    000000. *)
Lemma passkey_not_six_digits :
  ~ six_digit_code
      (value_of (on_request_passkey central_1)
                (initial_state (env_with_adapter true) "1234567"))
  /\ value_of (on_request_passkey central_1)
              (initial_state (env_with_adapter true) "no pin")
     = value_of (on_request_passkey central_1)
                (initial_state (env_with_adapter true) "000000").
Proof.
  split.
  - vm_compute. intros [_ H]. apply H. reflexivity.
  - vm_compute; reflexivity.
Qed.

Lemma to_guint32_range (z : Z) : 0 <= to_guint32 z < 2 ^ 32.
Proof. unfold to_guint32. apply Z.mod_pos_bound. lia. Qed.

(** C8, amended.  The passkey callback returns an unsigned 32-bit value:
    the number [fscanf] read, reduced modulo 2^32, which is the number
    itself when it is a six-digit code; when no number could be read it
    logs that and returns 0.  There is no range check and no failure
    result.  The agent replies to the pairing request with exactly the
    value the callback returned. *)
Theorem passkey_is_number_read :
  forall (device : Device) (s : state) (items : Z) (stored : option Z) (rest : string),
    scan_int (stdin s) = (items, stored, rest) ->
    let pass := value_of (on_request_passkey device) s in
    0 <= pass < 2 ^ 32
    /\ pass = from_option to_guint32 0 stored
    /\ (forall v, stored = Some v -> six_digit_code v -> pass = v)
    /\ (items <> 1 ->
        In (Call "log_debug" [AStr TAG; AStr "didn't read a pin code"] AVoid)
           (calls_of (on_request_passkey device) s))
    /\ calls_of (agent_request_passkey device) s =
       calls_of (on_request_passkey device) s
       ++ [Call "RequestPasskey.reply" [AInt pass] AVoid].
Proof.
  intros device s items stored rest Hscan pass.
  assert (Hpass : pass = from_option to_guint32 0 stored).
  { subst pass. unfold value_of, on_request_passkey, bind, fscanf_stdin_d,
      log_debug, call, when, ret.
    cbn. rewrite Hscan. cbn. destruct (negb (items =? 1)); destruct stored; reflexivity. }
  repeat split.
  - rewrite Hpass. destruct stored; cbn; [apply to_guint32_range | lia].
  - rewrite Hpass. destruct stored; cbn; [apply to_guint32_range | lia].
  - exact Hpass.
  - intros v -> [Hlo Hhi]. rewrite Hpass. cbn. unfold to_guint32.
    apply Z.mod_small. lia.
  - intros Hitems.
    unfold calls_of, on_request_passkey, bind, fscanf_stdin_d, log_debug, call, when, ret.
    cbn. rewrite Hscan. cbn.
    destruct (Z.eqb_spec items 1) as [|_]; [contradiction|].
    cbn. tauto.
  - unfold agent_request_passkey. rewrite calls_of_bind. reflexivity.
Qed.

Lemma passkey_is_number_read_witness :
  let s := initial_state (env_with_adapter true) "123456" in
  let pass := value_of (on_request_passkey central_1) s in
  0 <= pass < 2 ^ 32
  /\ pass = from_option to_guint32 0 (Some 123456)
  /\ (forall v, Some 123456 = Some v -> six_digit_code v -> pass = v)
  /\ (1 <> 1 ->
      In (Call "log_debug" [AStr TAG; AStr "didn't read a pin code"] AVoid)
         (calls_of (on_request_passkey central_1) s))
  /\ calls_of (agent_request_passkey central_1) s =
     calls_of (on_request_passkey central_1) s
     ++ [Call "RequestPasskey.reply" [AInt pass] AVoid].
Proof.
  apply (passkey_is_number_read central_1
           (initial_state (env_with_adapter true) "123456") 1 (Some 123456) "").
  vm_compute; reflexivity.
Defined.

(** * Further properties *)

(** ** The callees of composed computations *)

Section CallsWithin.
Variable allowed : list string.

Lemma calls_within_ret {A} (a : A) : calls_within allowed (ret a).
Proof. intros s; constructor. Qed.

Lemma calls_within_get {A} (g : state -> A) : calls_within allowed (get g).
Proof. intros s; constructor. Qed.

Lemma calls_within_modify (g : state -> state) : calls_within allowed (modify g).
Proof. intros s; constructor. Qed.

Lemma calls_within_call (g : string) (args : list arg) :
  In g allowed -> calls_within allowed (call g args).
Proof. intros Hg s; repeat constructor; exact Hg. Qed.

Lemma calls_within_call_returning {A} (g : string) args (inj : A -> arg) (r : A) :
  In g allowed -> calls_within allowed (call_returning g args inj r).
Proof. intros Hg s; repeat constructor; exact Hg. Qed.

Lemma calls_within_construct (g : string) (args : list arg) :
  In g allowed -> calls_within allowed (construct g args).
Proof. intros Hg s; repeat constructor; exact Hg. Qed.

Lemma calls_within_bind {A B} (m : M A) (k : A -> M B) :
  calls_within allowed m -> (forall a, calls_within allowed (k a)) ->
  calls_within allowed (bind m k).
Proof.
  intros Hm Hk s. rewrite calls_of_bind.
  apply Forall_app; split; [apply Hm | apply Hk].
Qed.

Lemma calls_within_when (b : bool) (m : M unit) :
  calls_within allowed m -> calls_within allowed (when b m).
Proof. destruct b; [trivial | intros _; apply calls_within_ret]. Qed.

Lemma calls_within_fscanf : In "fscanf" allowed -> calls_within allowed fscanf_stdin_d.
Proof.
  intros Hg s. unfold calls_of, fscanf_stdin_d.
  destruct (scan_int (stdin s)) as [[items stored] rest].
  repeat constructor; exact Hg.
Qed.

Lemma calls_within_never {A} (f : string) (m : M A) :
  ~ In f allowed -> calls_within allowed m -> never_calls f m.
Proof.
  intros Hf Hm s. eapply Forall_impl; [apply Hm|].
  intros e He Heq. apply Hf. rewrite <- Heq. exact He.
Qed.
End CallsWithin.

Lemma calls_within_weaken {A} (allowed allowed' : list string) (m : M A) :
  (forall f, In f allowed -> In f allowed') ->
  calls_within allowed m -> calls_within allowed' m.
Proof.
  intros Hsub Hm s. eapply Forall_impl; [apply Hm|].
  intros e He. apply Hsub, He.
Qed.

(** Membership of a literal in a literal list. *)
Ltac in_list := vm_compute; repeat first [left; reflexivity | right]; fail.

Ltac calls_within_step :=
  first
    [ apply calls_within_ret
    | apply calls_within_get
    | apply calls_within_modify
    | apply calls_within_when
    | apply calls_within_fscanf; in_list
    | apply calls_within_call; in_list
    | apply calls_within_call_returning; in_list
    | apply calls_within_construct; in_list
    | apply calls_within_bind; [ | intros ? ]
    | match goal with
      | |- calls_within _ (match ?x with _ => _ end) => destruct x
      end ].

Ltac calls_within_tac := repeat calls_within_step.

Lemma serving_calls (e : loop_event) :
  is_shutdown_trigger e = false -> calls_within serving_callees (dispatch e).
Proof.
  intros He. destruct e; try discriminate He; unfold_handlers; calls_within_tac.
Qed.

Lemma prompt_calls (e : loop_event) :
  is_shutdown_trigger e = false -> is_central_event e = false ->
  calls_within prompt_callees (dispatch e).
Proof.
  intros He Hc.
  destruct e; try discriminate He; try discriminate Hc;
    unfold_handlers; calls_within_tac.
Qed.

Lemma advertising_calls_nil (allowed : list string) (t : list event) :
  ~ In "binc_adapter_stop_advertising" allowed ->
  ~ In "binc_adapter_start_advertising" allowed ->
  Forall (fun e => In (callee e) allowed) t ->
  advertising_calls t = [].
Proof.
  intros Hstop Hstart Ht. unfold advertising_calls.
  induction Ht as [|e t He _ IH]; [reflexivity|].
  cbn [List.filter]. unfold is_call at 1 2.
  destruct (String.eqb_spec (callee e) "binc_adapter_stop_advertising") as [Heq|_];
    [rewrite Heq in He; contradiction|].
  destruct (String.eqb_spec (callee e) "binc_adapter_start_advertising") as [Heq|_];
    [rewrite Heq in He; contradiction|].
  exact IH.
Qed.

Lemma advertising_calls_app (t1 t2 : list event) :
  advertising_calls (t1 ++ t2) = advertising_calls t1 ++ advertising_calls t2.
Proof. unfold advertising_calls. apply List.filter_app. Qed.

Lemma not_in_list (f : string) (l : list string) :
  forallb (fun g => negb (String.eqb g f)) l = true -> ~ In f l.
Proof.
  intros Hall Hin. rewrite forallb_forall in Hall.
  specialize (Hall f Hin). rewrite String.eqb_refl in Hall. discriminate Hall.
Qed.

(** ** Events other than the timeout and the interrupt *)

(** X1.  The handlers of power, connection, authorization and passkey
    events leave the session as it is: the five globals, the timeout
    sources, the loop flag, the signal handler and the allocator are the
    same after the event as before. *)
Theorem serving_events_keep_session :
  forall (e : loop_event) (s : state),
    is_shutdown_trigger e = false ->
    session_of (state_after (dispatch e) s) = session_of s.
Proof. intros e s He. apply serving_keeps_session, He. Qed.

Lemma serving_events_keep_session_witness :
  session_of (state_after (dispatch (PasskeyRequested central_1))
                (started (env_with_adapter true) "123456"))
  = session_of (started (env_with_adapter true) "123456").
Proof.
  apply (serving_events_keep_session (PasskeyRequested central_1)
           (started (env_with_adapter true) "123456")).
  reflexivity.
Defined.

Lemma calls_to_app (f : string) (t1 t2 : list event) :
  calls_to f (t1 ++ t2) = calls_to f t1 ++ calls_to f t2.
Proof. unfold calls_to. apply List.filter_app. Qed.

Lemma calls_to_outside (f : string) (allowed : list string) (t : list event) :
  ~ In f allowed ->
  Forall (fun c => In (callee c) allowed) t ->
  calls_to f t = [].
Proof.
  intros Hf Ht. apply calls_to_never.
  eapply Forall_impl; [exact Ht|].
  intros c Hc Heq. apply Hf. rewrite <- Heq. exact Hc.
Qed.

Lemma disjoint_not_in (l1 l2 : list string) :
  forallb (fun f => forallb (fun g => negb (String.eqb g f)) l2) l1 = true ->
  forall f, In f l1 -> ~ In f l2.
Proof.
  intros Hdisj f Hf. rewrite forallb_forall in Hdisj.
  apply not_in_list, Hdisj, Hf.
Qed.

(** X2.  The handlers of power, connection, authorization and passkey
    events never register the application, never create an agent,
    advertisement or application, never request power-on, never call a
    [binc_..._free] function or [binc_adapter_unregister_application], and
    never quit or release the loop or close the D-Bus connection.  Among
    these handlers only that of a central's connection event can issue an
    advertising call. *)
Theorem serving_events_calls :
  forall (e : loop_event) (s : state),
    is_shutdown_trigger e = false ->
    (forall f, In f session_changing_callees ->
       calls_to f (calls_of (dispatch e) s) = [])
    /\ (is_central_event e = false ->
        advertising_calls (calls_of (dispatch e) s) = []).
Proof.
  intros e s He. split.
  - intros f Hf.
    apply (calls_to_outside f serving_callees).
    + revert f Hf. apply disjoint_not_in. vm_compute; reflexivity.
    + apply serving_calls, He.
  - intros Hc.
    apply (advertising_calls_nil prompt_callees);
      [apply not_in_list; reflexivity | apply not_in_list; reflexivity |].
    apply prompt_calls; assumption.
Qed.

Lemma serving_events_calls_witness :
  calls_to "binc_adapter_register_application"
    (calls_of (dispatch (PoweredStateChanged true)) (started (env_with_adapter false) ""))
  = []
  /\ advertising_calls
       (calls_of (dispatch (PoweredStateChanged true))
          (started (env_with_adapter false) "")) = [].
Proof.
  destruct (serving_events_calls (PoweredStateChanged true)
              (started (env_with_adapter false) "") eq_refl) as (Hnone & Hadv).
  split.
  - apply Hnone. left. reflexivity.
  - apply Hadv. reflexivity.
Defined.

(** ** The loop and the exit of [main] *)

Lemma dispatch_advertising (e : loop_event) (s : state) :
  is_shutdown_trigger e = false ->
  advertising_calls (calls_of (dispatch e) s) =
  if is_null (Session.default_adapter (globals s)) then []
  else advertising_policy (Session.default_adapter (globals s))
         (Session.advertisement (globals s)) e.
Proof.
  intros He.
  destruct (is_central_event e) eqn:Hc.
  - destruct e; try discriminate Hc.
    destruct device as [address name st bonded].
    destruct_state s. destruct_ptrs; destruct st; vm_compute; reflexivity.
  - rewrite (advertising_calls_nil prompt_callees);
      [| apply not_in_list; reflexivity | apply not_in_list; reflexivity
       | apply prompt_calls; assumption].
    destruct e; try discriminate Hc; try discriminate He;
      destruct (is_null _); reflexivity.
Qed.

Lemma iterate_serving (events : list loop_event) :
  forall s : state,
    forallb (fun e => negb (is_shutdown_trigger e)) events = true ->
    is_running s = true ->
    value_of (iterate events) s = false
    /\ session_of (state_after (iterate events) s) = session_of s
    /\ Forall (fun c => In (callee c) serving_callees) (calls_of (iterate events) s)
    /\ advertising_calls (calls_of (iterate events) s) =
       if is_null (Session.default_adapter (globals s)) then []
       else flat_map (advertising_policy (Session.default_adapter (globals s))
                        (Session.advertisement (globals s))) events.
Proof.
  induction events as [|e events IH]; intros s Hev Hrun.
  - repeat split.
    + apply iterate_nil_running, Hrun.
    + unfold state_after. cbn. rewrite Hrun. reflexivity.
    + unfold calls_of. cbn. rewrite Hrun. constructor.
    + unfold calls_of. cbn. rewrite Hrun. cbn. destruct (is_null _); reflexivity.
  - cbn [forallb] in Hev. apply andb_prop in Hev as [He Hev].
    apply negb_true_iff in He.
    destruct (iterate_cons e events s Hrun (survives_serving e s He))
      as (Hcalls & Hval & Hst).
    pose proof (serving_keeps_session e He s) as Hkeep.
    destruct (session_of_running _ _ Hkeep) as [Hrun' Hglob].
    rewrite Hrun in Hrun'.
    destruct (IH (state_after (dispatch e) s) Hev Hrun') as (IHv & IHs & IHc & IHa).
    rewrite Hcalls, Hval, Hst. repeat split.
    + exact IHv.
    + rewrite IHs. exact Hkeep.
    + apply Forall_app; split; [apply serving_calls, He | exact IHc].
    + rewrite advertising_calls_app, IHa, Hglob.
      rewrite (dispatch_advertising e s He).
      destruct (is_null (Session.default_adapter (globals s))); reflexivity.
Qed.

(** X3.  In a run whose loop receives no timeout and no interrupt, the
    advertising calls of the whole program are the one [start] of startup
    followed, event by event, by what the connect/disconnect policy
    prescribes: a [stop] for each central that connects and a [start] for
    each that disconnects, always on the adapter and advertisement created
    at startup.  Without an adapter there is no advertising call at all. *)
Theorem session_advertising_calls :
  forall (e : environment) (input : string) (events : list loop_event),
    forallb (fun ev => negb (is_shutdown_trigger ev)) events = true ->
    let adapter := Session.default_adapter (globals (started e input)) in
    let adv := Session.advertisement (globals (started e input)) in
    advertising_calls (calls_of (main events) (initial_state e input)) =
    if adapter_present e
    then start_advertising_call adapter adv
         :: flat_map (advertising_policy adapter adv) events
    else [].
Proof.
  intros e input events Hev adapter adv. subst adapter adv.
  rewrite main_calls, advertising_calls_app, main_serve_calls.
  fold (started e input).
  destruct (iterate_serving events (with_is_running true (started e input)) Hev eq_refl)
    as (Hval & _ & _ & Hadv).
  rewrite Hval, app_nil_r.
  change (advertising_calls (?c :: ?t)) with (advertising_calls t).
  rewrite Hadv.
  change (globals (with_is_running true (started e input)))
    with (globals (started e input)).
  destruct e as [[] [] [] []]; vm_compute; reflexivity.
Qed.

Lemma session_advertising_calls_witness :
  advertising_calls
    (calls_of
       (main [CentralStateChanged central_1;
              CentralStateChanged
                (mkDevice "AA:BB:CC:DD:EE:FF" (Some "central-1") BINC_DISCONNECTED false);
              CentralStateChanged central_1])
       (initial_state (env_with_adapter true) "")) =
  [start_advertising_call (Ptr 3) (Ptr 6);
   stop_advertising_call (Ptr 3) (Ptr 6);
   start_advertising_call (Ptr 3) (Ptr 6);
   stop_advertising_call (Ptr 3) (Ptr 6)].
Proof.
  apply (session_advertising_calls (env_with_adapter true) ""
           [CentralStateChanged central_1;
            CentralStateChanged
              (mkDevice "AA:BB:CC:DD:EE:FF" (Some "central-1") BINC_DISCONNECTED false);
            CentralStateChanged central_1]).
  reflexivity.
Defined.

(** X4.  When the handler for SIGINT could be installed, [main] returns 0
    once an interrupt has been delivered, whatever the environment and
    whatever other events the loop receives before or after it. *)
Theorem main_returns_after_interrupt :
  forall (e : environment) (input : string) (events : list loop_event),
    signal_installable e = true ->
    In Interrupt events ->
    value_of (main events) (initial_state e input) = Some 0.
Proof.
  intros e input events Hsig Hin.
  assert (Hex : existsb is_shutdown_trigger events = true).
  { apply existsb_exists. exists Interrupt. split; [exact Hin | reflexivity]. }
  rewrite main_value.
  destruct e as [[] [] [] []]; try discriminate Hsig;
    (erewrite iterate_until_shutdown;
      [reflexivity | vm_compute; reflexivity | vm_compute; reflexivity
       | vm_compute; reflexivity | exact Hex]).
Qed.

Lemma main_returns_after_interrupt_witness :
  value_of (main [PoweredStateChanged true; Interrupt; CentralStateChanged central_1])
           (initial_state (env_with_adapter false) "") = Some 0.
Proof.
  apply (main_returns_after_interrupt (env_with_adapter false) ""
           [PoweredStateChanged true; Interrupt; CentralStateChanged central_1]).
  - reflexivity.
  - cbn; tauto.
Defined.

(** X5.  Only the timeout and the interrupt end a session.  In a run
    whose loop delivers only power, connection, authorization and passkey
    events, however many, [main] does not return, and the program makes no
    call to [binc_agent_free], [binc_adapter_unregister_application],
    [binc_application_free], [binc_advertisement_free],
    [binc_adapter_free], [g_main_loop_quit], [g_main_loop_unref],
    [g_dbus_connection_close_sync] or [g_object_unref]. *)
Theorem session_ends_only_by_shutdown :
  forall (e : environment) (input : string) (events : list loop_event),
    forallb (fun ev => negb (is_shutdown_trigger ev)) events = true ->
    value_of (main events) (initial_state e input) = None
    /\ forall f, In f ending_callees ->
         calls_to f (calls_of (main events) (initial_state e input)) = [].
Proof.
  intros e input events Hev.
  destruct (iterate_serving events (with_is_running true (started e input)) Hev eq_refl)
    as (Hval & _ & Hcalls & _).
  split.
  - rewrite main_value. fold (started e input). rewrite Hval. reflexivity.
  - intros f Hf.
    rewrite main_calls, main_serve_calls. fold (started e input).
    rewrite Hval, app_nil_r, calls_to_app.
    match goal with
    | |- context [calls_to f (?c :: ?t)] => change (c :: t) with ([c] ++ t)
    end.
    rewrite calls_to_app.
    rewrite (calls_to_outside f serving_callees
               (calls_of (iterate events) (with_is_running true (started e input))))
      by (first [exact Hcalls
                | cbn in Hf;
                  destruct Hf as [<-|[<-|[<-|[<-|[<-|[<-|[<-|[<-|[<-|[]]]]]]]]]];
                  apply not_in_list; reflexivity]).
    cbn in Hf.
    destruct Hf as [<-|[<-|[<-|[<-|[<-|[<-|[<-|[<-|[<-|[]]]]]]]]]];
      destruct e as [[] [] [] []]; vm_compute; reflexivity.
Qed.

Lemma session_ends_only_by_shutdown_witness :
  value_of (main [CentralStateChanged central_1; PasskeyRequested central_1])
           (initial_state (env_with_adapter true) "123456") = None
  /\ forall f, In f ending_callees ->
       calls_to f
         (calls_of (main [CentralStateChanged central_1; PasskeyRequested central_1])
            (initial_state (env_with_adapter true) "123456")) = [].
Proof.
  apply (session_ends_only_by_shutdown (env_with_adapter true) "123456"
           [CentralStateChanged central_1; PasskeyRequested central_1]).
  reflexivity.
Defined.

Lemma dispatch_calls (e : loop_event) :
  calls_within (serving_callees ++ shutdown_callees) (dispatch e).
Proof. destruct e; unfold_handlers; calls_within_tac. Qed.

Lemma iterate_calls (events : list loop_event) :
  calls_within (serving_callees ++ shutdown_callees) (iterate events).
Proof.
  induction events as [|e events IH]; cbn [iterate].
  - calls_within_tac.
  - apply calls_within_bind; [calls_within_tac | intros running].
    destruct (negb running); [calls_within_tac |].
    apply calls_within_bind; [apply dispatch_calls | intros alive].
    destruct alive; [exact IH | calls_within_tac].
Qed.

(** X6.  Whenever [main] returns, the last three calls of the program are
    the release of the loop, the closing of the D-Bus connection obtained
    at startup and its release, in this order; none of the three is called
    at any earlier point, so the connection outlives every teardown call. *)
Theorem main_exit_is_last :
  forall (e : environment) (input : string) (events : list loop_event),
    value_of (main events) (initial_state e input) = Some 0 ->
    exists before : list event,
      calls_of (main events) (initial_state e input) =
        before ++ main_exit_calls (Session.loop (globals (started e input)))
                    (value_of main_startup (initial_state e input))
      /\ forall f, In f exit_callees -> calls_to f before = [].
Proof.
  intros e input events Hret.
  rewrite main_value in Hret. fold (started e input) in Hret.
  destruct (value_of (iterate events) (with_is_running true (started e input)))
    eqn:Hval; [clear Hret | discriminate Hret].
  exists (calls_of main_startup (initial_state e input)
          ++ [Call "g_main_loop_run" [APtr (Session.loop (globals (started e input)))] AVoid]
          ++ calls_of (iterate events) (with_is_running true (started e input))).
  split.
  - rewrite main_calls, main_serve_calls. fold (started e input).
    rewrite Hval. rewrite <- !app_assoc. reflexivity.
  - intros f Hf. rewrite !calls_to_app.
    rewrite (calls_to_outside f (serving_callees ++ shutdown_callees)
               (calls_of (iterate events) (with_is_running true (started e input))))
      by (first [apply iterate_calls
                | cbn in Hf; destruct Hf as [<-|[<-|[<-|[]]]];
                  apply not_in_list; reflexivity]).
    cbn in Hf.
    destruct Hf as [<-|[<-|[<-|[]]]];
      destruct e as [[] [] [] []]; vm_compute; reflexivity.
Qed.

Lemma main_exit_is_last_witness :
  exists before : list event,
    calls_of (main [TimeoutElapsed]) (initial_state (env_with_adapter true) "") =
      before ++ main_exit_calls (Ptr 2) (Ptr 1)
    /\ forall f, In f exit_callees -> calls_to f before = [].
Proof.
  apply (main_exit_is_last (env_with_adapter true) "" [TimeoutElapsed]).
  vm_compute; reflexivity.
Defined.

(** ** One run of the shutdown sequence *)

(** Rewrites the membership tests of [no_use_after_free] with the
    distinctness of the objects. *)
Ltac not_freed :=
  repeat match goal with
  | |- context [bool_decide (?p ∈ ?l)] =>
      rewrite (bool_decide_eq_false_2 (p ∈ l))
        by (rewrite ?not_elem_of_cons; intuition (try congruence);
            apply not_elem_of_nil)
  end.

(** X7.  One run of the shutdown sequence never hands a freed object to a
    later call, whichever of the objects exist, as long as they are distinct
    objects: the application is unregistered before it is freed, advertising
    is stopped before the advertisement is freed, and the adapter, which
    both calls need, is freed after them. *)
Theorem shutdown_uses_no_freed_object :
  forall (s : state) (data : ptr),
    NoDup (shutdown_objects (globals s) data) ->
    no_use_after_free [] (calls_of (callback data) s) = true.
Proof.
  intros s data Hnd. rewrite callback_calls.
  destruct_state s. destruct_ptrs; cbn in Hnd |- *; try reflexivity.
  all: rewrite ?NoDup_cons, ?not_elem_of_cons in Hnd.
  all: not_freed; reflexivity.
Qed.

Lemma shutdown_uses_no_freed_object_witness :
  no_use_after_free []
    (calls_of (callback (Ptr 2)) (started (env_with_adapter true) "")) = true.
Proof.
  apply (shutdown_uses_no_freed_object (started (env_with_adapter true) "") (Ptr 2)).
  apply (bool_decide_unpack _). vm_compute. exact I.
Defined.

(** X8.  Whatever the session holds, the shutdown sequence returns [FALSE]
    (so GLib drops the timeout source instead of re-arming it), leaves
    [agent], [app] and [default_adapter] at [NULL] and never assigns [loop]
    or [advertisement]; it clears the loop flag unless it was given a [NULL]
    loop.  A second run therefore leaves the globals as the first did. *)
Theorem shutdown_globals :
  forall (s : state) (data data' : ptr),
    let s' := state_after (callback data) s in
    value_of (callback data) s = false
    /\ globals s' =
       Session.mk (Session.loop (globals s)) NULL
         (Session.advertisement (globals s)) NULL NULL
    /\ is_running s' = (if is_null data then is_running s else false)
    /\ (timeouts s', sigint_handler s', next_handle s', stdin s')
       = (timeouts s, sigint_handler s, next_handle s, stdin s)
    /\ globals (state_after (callback data') s') = globals s'.
Proof.
  intros s data data' s'. subst s'.
  destruct_state s. destruct_ptrs; vm_compute; auto.
Qed.

(** ** The order of startup *)

Lemma preceded_seen (a b : string) (t : list event) :
  preceded a b true t = true.
Proof.
  induction t as [|e t IH]; [reflexivity|].
  cbn [preceded]. rewrite orb_true_r. exact IH.
Qed.

Lemma preceded_app (a b : string) (seen : bool) (t1 t2 : list event) :
  preceded a b seen (t1 ++ t2) =
  preceded a b seen t1 && preceded a b (seen || existsb (is_call a) t1) t2.
Proof.
  revert seen. induction t1 as [|e t1 IH]; intros seen; cbn [List.app preceded existsb].
  - rewrite orb_false_r. reflexivity.
  - rewrite IH, <- andb_assoc, orb_assoc. reflexivity.
Qed.

(** X9.  In every run that found an adapter, whatever the loop delivers,
    nothing is activated before it is set up: the power callback is
    installed before power-on is requested; the central callback, both
    agent callbacks and the advertised services are set before any
    advertising starts; and the service, characteristic, descriptor,
    descriptor value and all five characteristic callbacks are in place
    before the application is registered. *)
Theorem setup_precedes_activation :
  forall (e : environment) (input : string) (events : list loop_event),
    adapter_present e = true ->
    forall a b : string,
      In (a, b) setup_before_activation ->
      preceded a b false (calls_of (main events) (initial_state e input)) = true.
Proof.
  intros e input events Hadapter a b Hab.
  rewrite main_calls, preceded_app.
  assert (Hstart : preceded a b false (calls_of main_startup (initial_state e input)) = true
                   /\ existsb (is_call a) (calls_of main_startup (initial_state e input)) = true).
  { cbn in Hab.
    repeat (destruct Hab as [Hab|Hab]; [injection Hab as <- <-|]); [..|destruct Hab];
      destruct e as [[] [] [] []]; try discriminate Hadapter; vm_compute; auto. }
  destruct Hstart as [-> ->]. cbn [orb andb]. apply preceded_seen.
Qed.

Lemma setup_precedes_activation_witness :
  preceded "binc_application_set_char_read_cb" "binc_adapter_register_application" false
    (calls_of (main [CentralStateChanged central_1; TimeoutElapsed])
       (initial_state (env_with_adapter false) "")) = true.
Proof.
  apply (setup_precedes_activation (env_with_adapter false) ""
           [CentralStateChanged central_1; TimeoutElapsed]).
  - reflexivity.
  - do 9 right. left. reflexivity.
Defined.

Lemma none_after_outside (b : string) (forbidden allowed : list string)
    (seen : bool) (t : list event) :
  forallb (fun g => negb (existsb (String.eqb g) forbidden)) allowed = true ->
  Forall (fun c => In (callee c) allowed) t ->
  none_after b forbidden seen t = true.
Proof.
  intros Hdisj Ht. revert seen.
  rewrite forallb_forall in Hdisj.
  induction Ht as [|c t Hc _ IH]; intros seen; [reflexivity|].
  cbn [none_after]. rewrite (Hdisj _ Hc), orb_true_r. apply IH.
Qed.

Lemma none_after_app (b : string) (forbidden : list string) (seen : bool)
    (t1 t2 : list event) :
  none_after b forbidden seen (t1 ++ t2) =
  none_after b forbidden seen t1
  && none_after b forbidden (seen || existsb (is_call b) t1) t2.
Proof.
  revert seen. induction t1 as [|e t1 IH]; intros seen;
    cbn [List.app none_after existsb].
  - rewrite orb_false_r. reflexivity.
  - rewrite IH, <- andb_assoc, orb_assoc. reflexivity.
Qed.

Lemma main_serve_calls_within (events : list loop_event) (dbusConnection : ptr) :
  calls_within
    (["g_main_loop_run"] ++ exit_callees ++ serving_callees ++ shutdown_callees)
    (main_serve events dbusConnection).
Proof.
  unfold main_serve, g_main_loop_run, global.
  apply calls_within_bind; [calls_within_tac | intros loop].
  apply calls_within_bind.
  - apply calls_within_bind; [calls_within_tac | intros _].
    apply calls_within_bind; [calls_within_tac | intros _].
    eapply calls_within_weaken; [| apply iterate_calls].
    intros f Hf. apply in_or_app; right. apply in_or_app; right. exact Hf.
  - intros quit. calls_within_tac.
Qed.

Lemma gatt_callbacks_calls
    (application : ptr) (address service_uuid char_uuid : string)
    (byteArray : list Byte.byte) (mtu offset : Z) :
  calls_within gatt_callees
    (on_local_char_write application address service_uuid char_uuid byteArray mtu offset)
  /\ calls_within gatt_callees
       (on_local_char_updated application service_uuid char_uuid byteArray)
  /\ calls_within gatt_callees
       (on_local_char_start_notify application service_uuid char_uuid)
  /\ calls_within gatt_callees
       (on_local_char_stop_notify application service_uuid char_uuid).
Proof.
  repeat split;
    unfold on_local_char_write, on_local_char_updated, on_local_char_start_notify,
      on_local_char_stop_notify, g_byte_array_as_hex, log_debug;
    calls_within_tac.
Qed.

(** X10.  Once the application is registered, no adapter, agent,
    advertisement or application object is created or configured any more:
    in every run, no call after [binc_adapter_register_application] goes
    to a [binc_] constructor, to a function that adds a service,
    characteristic or descriptor, sets a descriptor value or an
    advertisement field, installs a [binc_] callback or requests power-on.
    The write and notification callbacks, which the library invokes only
    for a registered application, call none of these functions either. *)
Theorem nothing_configured_after_registration :
  (forall (e : environment) (input : string) (events : list loop_event),
     none_after "binc_adapter_register_application" configuring_callees false
       (calls_of (main events) (initial_state e input)) = true)
  /\
  (forall (application : ptr) (address service_uuid char_uuid : string)
          (byteArray : list Byte.byte) (mtu offset : Z) (s : state) (f : string),
     In f configuring_callees ->
     calls_to f
       (calls_of (on_local_char_write application address service_uuid char_uuid
                    byteArray mtu offset) s) = []
     /\ calls_to f
          (calls_of (on_local_char_updated application service_uuid char_uuid byteArray) s)
        = []
     /\ calls_to f
          (calls_of (on_local_char_start_notify application service_uuid char_uuid) s) = []
     /\ calls_to f
          (calls_of (on_local_char_stop_notify application service_uuid char_uuid) s) = []).
Proof.
  split.
  - intros e input events.
    rewrite main_calls, none_after_app.
    match goal with
    | |- _ && none_after ?b ?f ?seen ?t = true =>
        replace (none_after b f seen t) with true
    end.
    2: { symmetry.
         apply (none_after_outside _ _
                  (["g_main_loop_run"] ++ exit_callees
                   ++ serving_callees ++ shutdown_callees));
           [vm_compute; reflexivity | apply main_serve_calls_within]. }
    rewrite andb_true_r.
    destruct e as [[] [] [] []]; vm_compute; reflexivity.
  - intros application address service_uuid char_uuid byteArray mtu offset s f Hf.
    assert (Hout : ~ In f gatt_callees)
      by (revert f Hf; apply disjoint_not_in; vm_compute; reflexivity).
    destruct (gatt_callbacks_calls application address service_uuid char_uuid
                byteArray mtu offset) as (Hw & Hu & Hstart & Hstop).
    repeat split; apply (calls_to_outside f gatt_callees); auto.
Qed.

Lemma nothing_configured_after_registration_witness :
  calls_to "binc_application_add_service"
    (calls_of (on_local_char_write (Ptr 7) "AA:BB:CC:DD:EE:FF" HTS_SERVICE_UUID
                 TEMPERATURE_CHAR_UUID [Byte.x01; Byte.x02] 23 0)
       (started (env_with_adapter true) "")) = []
  /\ calls_to "binc_application_add_service"
       (calls_of (on_local_char_updated (Ptr 7) HTS_SERVICE_UUID
                    TEMPERATURE_CHAR_UUID [Byte.x01; Byte.x02])
          (started (env_with_adapter true) "")) = []
  /\ calls_to "binc_application_add_service"
       (calls_of (on_local_char_start_notify (Ptr 7) HTS_SERVICE_UUID TEMPERATURE_CHAR_UUID)
          (started (env_with_adapter true) "")) = []
  /\ calls_to "binc_application_add_service"
       (calls_of (on_local_char_stop_notify (Ptr 7) HTS_SERVICE_UUID TEMPERATURE_CHAR_UUID)
          (started (env_with_adapter true) "")) = [].
Proof.
  apply (proj2 nothing_configured_after_registration (Ptr 7) "AA:BB:CC:DD:EE:FF"
           HTS_SERVICE_UUID TEMPERATURE_CHAR_UUID [Byte.x01; Byte.x02] 23 0
           (started (env_with_adapter true) "") "binc_application_add_service").
  right. left. reflexivity.
Defined.

(** ** Temporary containers *)

Lemma outstanding_app (live : list ptr) (t1 t2 : list event) :
  outstanding live (t1 ++ t2) = outstanding (outstanding live t1) t2.
Proof.
  revert live. induction t1 as [|e t1 IH]; intros live; [reflexivity|].
  cbn [List.app outstanding]. apply IH.
Qed.

Lemma existsb_outside (f : string) (names allowed : list string) :
  forallb (fun g => negb (existsb (String.eqb g) names)) allowed = true ->
  In f allowed -> existsb (String.eqb f) names = false.
Proof.
  intros Hdisj Hf. rewrite forallb_forall in Hdisj.
  apply negb_true_iff, Hdisj, Hf.
Qed.

Lemma outstanding_inert (allowed : list string) (live : list ptr) (t : list event) :
  forallb (fun g => negb (existsb (String.eqb g) container_callees)) allowed = true ->
  Forall (fun c => In (callee c) allowed) t ->
  outstanding live t = live.
Proof.
  intros Hdisj Ht. revert live.
  induction Ht as [|c t Hc _ IH]; intros live; [reflexivity|].
  cbn [outstanding]. unfold allocated_by, released_by.
  pose proof (existsb_outside _ _ _ Hdisj Hc) as Hout.
  unfold container_callees in Hout. cbn [existsb] in Hout |- *.
  repeat (apply orb_false_elim in Hout as [? Hout]).
  repeat match goal with H : String.eqb _ _ = false |- _ => rewrite H; clear H end.
  cbn [orb]. apply IH.
Qed.

(** X11.  Of the GLib containers the program allocates in a run whose loop
    delivers the timeout, SIGINT and power, connection, authorization and
    passkey events, the only one the program does not release itself is
    the byte array it handed to [binc_application_set_desc_value]: one
    when an adapter was found, none otherwise.  The pointer array of
    advertised service UUIDs is released by startup. *)
Theorem startup_containers :
  forall (e : environment) (input : string) (events : list loop_event),
    let t := calls_of (main events) (initial_state e input) in
    outstanding [] t = descriptor_values t
    /\ length (descriptor_values t) = (if adapter_present e then 1%nat else 0%nat).
Proof.
  intros e input events t. subst t.
  pose proof (main_serve_calls_within events
                (value_of main_startup (initial_state e input))
                (state_after main_startup (initial_state e input))) as Hserve.
  rewrite main_calls, outstanding_app.
  rewrite (outstanding_inert
             (["g_main_loop_run"] ++ exit_callees ++ serving_callees ++ shutdown_callees)
             _ _ ltac:(vm_compute; reflexivity) Hserve).
  unfold descriptor_values. rewrite calls_to_app.
  rewrite (calls_to_outside "binc_application_set_desc_value"
             (["g_main_loop_run"] ++ exit_callees ++ serving_callees ++ shutdown_callees)
             _ ltac:(apply not_in_list; vm_compute; reflexivity) Hserve).
  rewrite app_nil_r.
  destruct e as [[] [] [] []]; vm_compute; auto.
Qed.

(** ** The write and notification callbacks *)

(** X12.  The write, updated and start-notify callbacks release every
    container they allocate before they return, and none of the four
    callbacks touches a global of the program; the write callback accepts
    every request, whatever the characteristic and the bytes. *)
Theorem gatt_callbacks_release_containers :
  forall (application : ptr) (address service_uuid char_uuid : string)
         (byteArray : list Byte.byte) (mtu offset : Z) (s : state),
    let write := on_local_char_write application address service_uuid char_uuid
                   byteArray mtu offset in
    let updated := on_local_char_updated application service_uuid char_uuid byteArray in
    let start := on_local_char_start_notify application service_uuid char_uuid in
    let stop := on_local_char_stop_notify application service_uuid char_uuid in
    value_of write s = None
    /\ outstanding [] (calls_of write s) = []
    /\ outstanding [] (calls_of updated s) = []
    /\ outstanding [] (calls_of start s) = []
    /\ outstanding [] (calls_of stop s) = []
    /\ globals (state_after write s) = globals s
    /\ globals (state_after updated s) = globals s
    /\ globals (state_after start s) = globals s
    /\ globals (state_after stop s) = globals s.
Proof.
  intros application address service_uuid char_uuid byteArray mtu offset s.
  cbv zeta.
  assert (Hself : forall p : ptr, bool_decide (p = p) = true)
    by (intros p; apply bool_decide_eq_true_2; reflexivity).
  unfold on_local_char_start_notify.
  destruct (g_str_equal service_uuid HTS_SERVICE_UUID
            && g_str_equal char_uuid TEMPERATURE_CHAR_UUID);
    repeat split; try reflexivity;
    cbn; rewrite Hself; reflexivity.
Qed.



(** ** Repeated reads *)

(** X14.  A read is repeatable and confined: reading the same
    characteristic again gives the same answer and leaves the application
    as the first read left it; a read never adds or removes a
    characteristic, never changes a characteristic other than the
    temperature measurement, and keeps the property flags and the
    subscription flag of that one. *)
Theorem read_is_repeatable :
  forall (tree : Application) (address address' service_uuid char_uuid : string)
         (mtu offset mtu' offset' : Z),
    let r := on_local_char_read tree address service_uuid char_uuid mtu offset in
    on_local_char_read (snd r) address' service_uuid char_uuid mtu' offset' = r
    /\ dom (snd r) = dom tree
    /\ (forall k, k <> (HTS_SERVICE_UUID, TEMPERATURE_CHAR_UUID) ->
        snd r !! k = tree !! k)
    /\ (forall c', snd r !! (HTS_SERVICE_UUID, TEMPERATURE_CHAR_UUID) = Some c' ->
        exists c, tree !! (HTS_SERVICE_UUID, TEMPERATURE_CHAR_UUID) = Some c
                  /\ properties c' = properties c /\ notifying c' = notifying c).
Proof.
  intros tree address address' service_uuid char_uuid mtu offset mtu' offset'.
  cbv zeta. unfold on_local_char_read, g_str_equal.
  destruct (String.eqb_spec service_uuid HTS_SERVICE_UUID) as [->|Hs];
    destruct (String.eqb_spec char_uuid TEMPERATURE_CHAR_UUID) as [->|Hc];
    cbn [andb snd];
    try solve [repeat split; try reflexivity; intros c' Hc'; exists c'; auto].
  unfold binc_application_set_char_value.
  destruct (tree !! (HTS_SERVICE_UUID, TEMPERATURE_CHAR_UUID)) as [c|] eqn:Hlook.
  - rewrite lookup_insert_eq. cbn [properties notifying value].
    rewrite insert_insert_eq. repeat split.
    + apply dom_insert_lookup_L. eauto.
    + intros k Hk. apply lookup_insert_ne. congruence.
    + intros c' Hc'. rewrite ?lookup_insert_eq in Hc'. injection Hc' as <-.
      exists c. auto.
  - rewrite Hlook. repeat split.
    intros c' Hc'. congruence.
Qed.

Lemma read_is_repeatable_witness :
  let r := on_local_char_read thermometer "AA:BB:CC:DD:EE:FF"
             HTS_SERVICE_UUID TEMPERATURE_CHAR_UUID 23 0 in
  on_local_char_read (snd r) "11:22:33:44:55:66"
    HTS_SERVICE_UUID TEMPERATURE_CHAR_UUID 185 0 = r
  /\ snd r !! (HTS_SERVICE_UUID, CUD_CHAR) = thermometer !! (HTS_SERVICE_UUID, CUD_CHAR).
Proof.
  destruct (read_is_repeatable thermometer "AA:BB:CC:DD:EE:FF" "11:22:33:44:55:66"
              HTS_SERVICE_UUID TEMPERATURE_CHAR_UUID 23 0 185 0) as (Hsame & _ & Hother & _).
  split.
  - exact Hsame.
  - apply Hother. discriminate.
Defined.
